(** * PropClaw: the agent lifecycle and wallet allocation engine

    A shallow embedding of [src/types.ts], [src/db.ts] and [src/server.ts]
    of the OpenClaw AI prop firm, and the properties of its performance
    analyzer, wallet pool, agent registry, trade gate and profit ledger.

    Modelling conventions.
    - A JavaScript [number] is an exact rational ([Q]); the rounding of
      IEEE doubles, [NaN] and the infinities are outside the model.  A value
      obtained with [parseFloat] from an exchange field is the rational that
      the decimal string denotes.
    - A SQLite table is the list of its rows in rowid order.
    - An [async] handler is a tree of synchronous segments separated by
      [await] points ([Task]); it can be run to completion on its own
      ([run]) or interleaved with other requests ([run_schedule]). *)

From Stdlib Require Import String List Bool Arith ZArith QArith Qround Lia Lqa.
From Stdlib Require Import Permutation.
Import ListNotations.

Local Open Scope Q_scope.

(* ------------------------------------------------------------------ *)
(** ** JavaScript numbers *)

Module JS.

(** [a < b] on numbers. *)
Definition lt (a b : Q) : bool := negb (Qle_bool b a).
(** [a > b]. *)
Definition gt (a b : Q) : bool := lt b a.
(** [a >= b]. *)
Definition ge (a b : Q) : bool := Qle_bool b a.

(** [Math.round(x)]: the nearest integer, halves towards +infinity. *)
Definition Math_round (x : Q) : Q := inject_Z (Qfloor (x + (1 # 2))).

(** A [nat] counter read as a number. *)
Definition of_nat (n : nat) : Q := inject_Z (Z.of_nat n).

End JS.

(* ------------------------------------------------------------------ *)
(** ** [types.ts] *)

(** [export const RISK_GATES = { ... }] *)
Module RISK_GATES.
Definition MIN_TRADES : nat := 10.
Definition MIN_WINRATE : Q := 0.45.
Definition MIN_TOTAL_PNL : Q := -500.
Definition MAX_DRAWDOWN : Q := 0.15.
Definition MAX_DAILY_TRADES : Z := 50.
Definition DRAWDOWN_KILL : Q := 0.10.
Definition AGENT_PROFIT_SHARE : Q := 0.80.
Definition FIRM_PROFIT_SHARE : Q := 0.20.
End RISK_GATES.

(** [status: "active" | "revoked"] *)
Inductive Status : Type := active | revoked.

Definition Status_eqb (a b : Status) : bool :=
  match a, b with
  | active, active | revoked, revoked => true
  | _, _ => false
  end.

(** An agent object as it exists at run time.  [interface Agent] declares
    ten properties, but an object obtained from the store is the row of
    [SELECT *]: it has the column [hyperliquid_address] and lacks
    [hl_address], [initial_capital] and [created_at].  A property that an
    object may lack is an [option]; [None] is JavaScript's [undefined]. *)
Record Agent : Type := {
  id : string;
  hl_address : option string;
  hyperliquid_address : option string;
  funded_wallet_address : string;
  initial_capital : option Q;
  current_pnl : Q;
  agent_profit : Q;
  firm_profit : Q;
  status : Status;
  trade_count : Z;
  created_at : option string
}.

(** One element of [infoClient.userFills(...)]; [closedPnl] is
    [parseFloat(fill.closedPnl)]. *)
Record Fill : Type := { closedPnl : Q }.

(* ------------------------------------------------------------------ *)
(** ** The performance analyzer ([analyzePnL], server.ts) *)

(** The entries pushed on [reasons].  Each constructor is one of the
    template literals of [analyzePnL] and carries the numbers that the
    literal formats. *)
Inductive Reason : Type :=
| InsufficientTrades (n min : nat)   (* `Insufficient trades: ${n} < ${min}` *)
| WinRateBelow (winRate : Q)         (* `Win rate: ...% < ...%` *)
| PnlBelow (totalPnl : Q)            (* `PnL: $... < $...` *)
| DrawdownAbove (maxDrawdown : Q).   (* `Drawdown: ...% > ...%` *)

(** The object returned by [analyzePnL]. *)
Record Metrics : Type := {
  total_pnl : Q;
  win_rate : Q;
  max_drawdown : Q;
  total_trades : nat;
  passes : bool;
  reasons : list Reason
}.

(** The local variables of the loop:
    [let totalPnl = 0, wins = 0, peak = 0, maxDrawdown = 0, runningPnl = 0]. *)
Record Acc : Type := {
  totalPnl : Q;
  wins : nat;
  peak : Q;
  maxDrawdown : Q;
  runningPnl : Q
}.

Definition acc0 : Acc :=
  {| totalPnl := 0; wins := 0; peak := 0; maxDrawdown := 0; runningPnl := 0 |}.

(** One iteration of [for (const fill of fills) { ... }]. *)
Definition loop_body (s : Acc) (fill : Fill) : Acc :=
  let pnl := closedPnl fill in
  let runningPnl' := runningPnl s + pnl in
  let totalPnl' := totalPnl s + pnl in
  let wins' := if JS.gt pnl 0 then S (wins s) else wins s in
  let peak' := if JS.gt runningPnl' (peak s) then runningPnl' else peak s in
  let dd := if JS.gt peak' 0 then (peak' - runningPnl') / peak' else 0 in
  let maxDrawdown' := if JS.gt dd (maxDrawdown s) then dd else maxDrawdown s in
  {| totalPnl := totalPnl'; wins := wins'; peak := peak';
     maxDrawdown := maxDrawdown'; runningPnl := runningPnl' |}.

Definition loop (fills : list Fill) : Acc := fold_left loop_body fills acc0.

(** [const winRate = wins / fills.length]. *)
Definition winRate (fills : list Fill) : Q :=
  JS.of_nat (wins (loop fills)) / JS.of_nat (length fills).

(** The three [if (...) reasons.push(...)] statements, in order. *)
Definition gate_reasons (fills : list Fill) : list Reason :=
  (if JS.lt (winRate fills) RISK_GATES.MIN_WINRATE
   then [WinRateBelow (winRate fills)] else [])
  ++ (if JS.lt (totalPnl (loop fills)) RISK_GATES.MIN_TOTAL_PNL
      then [PnlBelow (totalPnl (loop fills))] else [])
  ++ (if JS.gt (maxDrawdown (loop fills)) RISK_GATES.MAX_DRAWDOWN
      then [DrawdownAbove (maxDrawdown (loop fills))] else []).

(** The body of [analyzePnL] after [fills] has been fetched. *)
Definition analyzeFills (fills : list Fill) : Metrics :=
  if (length fills <? RISK_GATES.MIN_TRADES)%nat then
    {| total_pnl := 0; win_rate := 0; max_drawdown := 0;
       total_trades := length fills; passes := false;
       reasons := [InsufficientTrades (length fills) RISK_GATES.MIN_TRADES] |}
  else
    {| total_pnl := JS.Math_round (totalPnl (loop fills) * 100) / 100;
       win_rate := JS.Math_round (winRate fills * 1000) / 1000;
       max_drawdown := JS.Math_round (maxDrawdown (loop fills) * 1000) / 1000;
       total_trades := length fills;
       passes := (length (gate_reasons fills) =? 0)%nat;
       reasons := gate_reasons fills |}.

(* ------------------------------------------------------------------ *)
(** ** The profit split (the body of [if (latestFill) { ... }] in
       [app.post("/trade")]) *)

(** [profit_split: { closed_pnl, agent_share, firm_share }] *)
Record ProfitSplit : Type := {
  closed_pnl : Q;
  agent_share : Q;
  firm_share : Q
}.

(** The update of the in-memory [agent] and of [profitSplit] for one
    [closedPnl]. *)
Definition applyClosedPnl (agent : Agent) (closedPnl : Q)
  : Agent * option ProfitSplit :=
  if JS.gt closedPnl 0 then
    let agentShare := closedPnl * RISK_GATES.AGENT_PROFIT_SHARE in
    let firmShare := closedPnl * RISK_GATES.FIRM_PROFIT_SHARE in
    ({| id := id agent;
        hl_address := hl_address agent;
        hyperliquid_address := hyperliquid_address agent;
        funded_wallet_address := funded_wallet_address agent;
        initial_capital := initial_capital agent;
        current_pnl := current_pnl agent + closedPnl;
        agent_profit := agent_profit agent + agentShare;
        firm_profit := firm_profit agent + firmShare;
        status := status agent;
        trade_count := trade_count agent;
        created_at := created_at agent |},
     Some {| closed_pnl := closedPnl; agent_share := agentShare;
             firm_share := firmShare |})
  else if JS.lt closedPnl 0 then
    ({| id := id agent;
        hl_address := hl_address agent;
        hyperliquid_address := hyperliquid_address agent;
        funded_wallet_address := funded_wallet_address agent;
        initial_capital := initial_capital agent;
        current_pnl := current_pnl agent + closedPnl;
        agent_profit := agent_profit agent;
        firm_profit := firm_profit agent;
        status := status agent;
        trade_count := trade_count agent;
        created_at := created_at agent |},
     None)
  else (agent, None).

(* ------------------------------------------------------------------ *)
(** ** The store ([db.ts]) *)

(** A row of table [agents]:
    [id TEXT PRIMARY KEY, hyperliquid_address TEXT NOT NULL UNIQUE,
     funded_wallet_address TEXT NOT NULL, current_pnl REAL, firm_profit REAL,
     agent_profit REAL, trade_count INTEGER, status TEXT].
    There is no column for [initial_capital] and none for [created_at]. *)
Record AgentRow : Type := {
  row_id : string;
  row_hyperliquid_address : string;
  row_funded_wallet_address : string;
  row_current_pnl : Q;
  row_firm_profit : Q;
  row_agent_profit : Q;
  row_trade_count : Z;
  row_status : Status
}.

(** A row of table [funded_wallets]:
    [address TEXT PRIMARY KEY, api_id TEXT NOT NULL, assigned_to TEXT].
    The object that [SELECT *] returns has these three properties; it has
    no [privateKey]. *)
Record FundedWallet : Type := {
  address : string;
  api_id : string;
  assigned_to : option string
}.

Record Db : Type := {
  agents : list AgentRow;
  funded_wallets : list FundedWallet
}.

(** [row as Agent]: the cast changes nothing, the object has the columns of
    the row as its properties. *)
Definition row_as_Agent (r : AgentRow) : Agent :=
  {| id := row_id r;
     hl_address := None;
     hyperliquid_address := Some (row_hyperliquid_address r);
     funded_wallet_address := row_funded_wallet_address r;
     initial_capital := None;
     current_pnl := row_current_pnl r;
     agent_profit := row_agent_profit r;
     firm_profit := row_firm_profit r;
     status := row_status r;
     trade_count := row_trade_count r;
     created_at := None |}.

(** [SELECT * FROM agents WHERE id = ?] *)
Definition getAgent (id0 : string) (db : Db) : option Agent :=
  option_map row_as_Agent
    (find (fun r => String.eqb (row_id r) id0) (agents db)).

(** [SELECT * FROM agents WHERE hyperliquid_address = ?] *)
Definition getAgentByHyperliquidAddress (addr : string) (db : Db)
  : option Agent :=
  option_map row_as_Agent
    (find (fun r => String.eqb (row_hyperliquid_address r) addr) (agents db)).

(** [getAllAgents(statusFilter)]; [None] is the filter ["all"]. *)
Definition getAllAgents (statusFilter : option Status) (db : Db) : list Agent :=
  match statusFilter with
  | None => map row_as_Agent (agents db)
  | Some s =>
      map row_as_Agent (filter (fun r => Status_eqb (row_status r) s) (agents db))
  end.

(** The rows that an [INSERT OR REPLACE] of [(id0, addr, ...)] deletes: those
    that conflict on the primary key or on the [UNIQUE] address. *)
Definition conflicts (id0 addr : string) (r : AgentRow) : bool :=
  String.eqb (row_id r) id0 || String.eqb (row_hyperliquid_address r) addr.

(** [saveAgent(agent)]: [INSERT OR REPLACE INTO agents (...) VALUES (@id,
    @hl_address, @funded_wallet_address, @current_pnl, @firm_profit,
    @agent_profit, @trade_count, @status)], bound to the properties of
    [agent].  The statement reads eight properties and nothing else.  An
    object without the property [hl_address] has no value for the
    [NOT NULL] column [hyperliquid_address]: the statement throws and the
    table is unchanged ([None]).  Otherwise the conflicting rows are deleted
    and the new row is added at the end. *)
Definition saveAgent (agent : Agent) (db : Db) : option Db :=
  match hl_address agent with
  | None => None
  | Some addr =>
      Some {| agents :=
                filter (fun r => negb (conflicts (id agent) addr r)) (agents db)
                ++ [ {| row_id := id agent;
                        row_hyperliquid_address := addr;
                        row_funded_wallet_address := funded_wallet_address agent;
                        row_current_pnl := current_pnl agent;
                        row_firm_profit := firm_profit agent;
                        row_agent_profit := agent_profit agent;
                        row_trade_count := trade_count agent;
                        row_status := status agent |} ];
              funded_wallets := funded_wallets db |}
  end.

Definition is_free (w : FundedWallet) : bool :=
  match assigned_to w with None => true | Some _ => false end.

Definition is_assigned_to (agentId : string) (w : FundedWallet) : bool :=
  match assigned_to w with Some a => String.eqb a agentId | None => false end.

(** [SELECT * FROM funded_wallets WHERE assigned_to IS NULL LIMIT 1] *)
Definition getAvailableWallet (db : Db) : option FundedWallet :=
  find is_free (funded_wallets db).

(** [SELECT * FROM funded_wallets WHERE assigned_to = ?] *)
Definition getWalletForAgent (agentId : string) (db : Db) : option FundedWallet :=
  find (is_assigned_to agentId) (funded_wallets db).

(** [UPDATE funded_wallets SET assigned_to = ? WHERE address = ?] *)
Definition assignWallet (walletAddress agentId : string) (db : Db) : Db :=
  {| agents := agents db;
     funded_wallets :=
       map (fun w =>
              if String.eqb (address w) walletAddress
              then {| address := address w; api_id := api_id w;
                      assigned_to := Some agentId |}
              else w)
           (funded_wallets db) |}.

(** [getFundedWalletsCount()]: [(total, free)]. *)
Definition getFundedWalletsCount (db : Db) : nat * nat :=
  (length (funded_wallets db), length (filter is_free (funded_wallets db))).

(* ------------------------------------------------------------------ *)
(** ** Requests, responses and the outside world *)

(** [EvaluateInputSchema] *)
Module EvaluateInput.
Record t : Type := { hyperliquid_address : string; signature : string }.
End EvaluateInput.

Inductive OrderKind : Type := limit | market.

(** [TradeInputSchema]; an [.optional()] field is an [option]. *)
Module TradeInput.
Record t : Type := {
  agent_id : string;
  coin : string;
  is_buy : bool;
  sz : Q;
  limit_px : Q;
  order_type : OrderKind;
  reduce_only : bool;
  leverage : option Q;
  tp_px : option Q;
  sl_px : option Q
}.
End TradeInput.

(** [CancelInputSchema] *)
Module CancelInput.
Record t : Type := { agent_id : string; coin : string; oid : Q }.
End CancelInput.

(** The [marginSummary] and [withdrawable] fields of
    [infoClient.clearinghouseState], after [parseFloat]. *)
Record ClearinghouseState : Type := {
  cs_accountValue : Q;
  cs_totalMarginUsed : Q;
  cs_withdrawable : Q
}.

(** One element of [spot.balances]. *)
Record SpotBalance : Type := { sb_coin : string; sb_total : Q }.

(** The object returned by [getBalance]. *)
Record Balance : Type := {
  accountValue : Q;
  totalMarginUsed : Q;
  withdrawable : Q
}.

Inductive Tif : Type := Ioc | Gtc.
Inductive Tpsl : Type := tp | sl.

(** The [t] field of an order. *)
Inductive OrderType : Type :=
| t_limit (tif : Tif)
| t_trigger (isMarket : bool) (triggerPx : Q) (tpsl : Tpsl).

(** An element of [ordersToPlace]; prices and sizes are kept as numbers. *)
Record Order : Type := {
  o_a : nat;
  o_b : bool;
  o_p : Q;
  o_s : Q;
  o_r : bool;
  o_t : OrderType
}.

Inductive Grouping : Type := normalTpsl | na.

(** What [privateKeyToAccount] returns and the exchange answers: opaque. *)
Definition Account : Type := string.
Definition HlResponse : Type := string.

(** The calls a handler awaits: the promise resolves with a value or
    rejects. *)
Inductive Async : Type -> Type :=
| verifyMessage (address message signature : string) : Async bool
| userFills (user : string) : Async (list Fill)
| clearinghouseState (user : string) : Async ClearinghouseState
| spotClearinghouseState (user : string) : Async (list SpotBalance)
| meta : Async (list string)
| updateLeverage (wallet : Account) (asset : nat) (leverage : Q) : Async unit
| order (wallet : Account) (orders : list Order) (grouping : Grouping)
    : Async HlResponse
| cancel (wallet : Account) (a : nat) (o : Q) : Async HlResponse.

(** Synchronous library calls. *)
Inductive Lib : Type -> Type :=
| randomUUID : Lib string
| Date_toISOString : Lib string
| privateKeyToAccount (privateKey : option string) : Lib Account.

(** What the outside world answers to one request; [None] is a rejected
    promise or a thrown exception. *)
Record Env : Type := {
  answer : forall X, Async X -> option X;
  returns : forall X, Lib X -> option X
}.

Inductive Event : Type :=
| awaited {X : Type} (c : Async X)
| called {X : Type} (c : Lib X).

(** The JSON responses of the three POST handlers, with their status. *)
Inductive Response : Type :=
| already_registered (agent : Agent)
| invalid_signature (expectedMessage : string)
| rejected (metrics : Metrics)
| no_funded_wallets
| approved (bypass : bool) (agent : Agent) (metrics : Metrics)
    (auth_message : string)
| agent_not_found
| access_revoked
| daily_trade_limit
| no_wallet_assigned
| drawdown_exceeded (drawdown : Q)
| coin_not_found (coin : string)
| executed (agent_id : string) (hl_response : HlResponse)
    (profit_split : option ProfitSplit)
| cancel_access_revoked
| cancel_executed (agent_id : string) (hl_response : HlResponse)
| invalid_input
| internal_server_error.

Definition http_status (r : Response) : nat :=
  match r with
  | already_registered _ | approved _ _ _ _ | executed _ _ _
  | cancel_executed _ _ => 200
  | invalid_signature _ => 401
  | rejected _ | access_revoked | drawdown_exceeded _
  | cancel_access_revoked => 403
  | no_funded_wallets => 503
  | agent_not_found => 404
  | daily_trade_limit => 429
  | no_wallet_assigned | internal_server_error => 500
  | coin_not_found _ | invalid_input => 400
  end%nat.

(* ------------------------------------------------------------------ *)
(** ** Handlers as trees of synchronous segments *)

Inductive Exn : Type := ZodError | Error.

(** A computation that ends with a value, a thrown exception or a response
    sent ([res.json(...); return]), and that on the way awaits a promise,
    calls a library or runs a statement on the store.  The continuation of a
    call receives [None] when the call throws. *)
Inductive Task (R : Type) : Type :=
| Ret (r : R)
| Throw (e : Exn)
| Respond (res : Response)
| Await {X : Type} (c : Async X) (k : option X -> Task R)
| Call {X : Type} (c : Lib X) (k : option X -> Task R)
| Sql {X : Type} (stmt : Db -> option X * Db) (k : option X -> Task R).

Arguments Ret {R} r.
Arguments Throw {R} e.
Arguments Respond {R} res.
Arguments Await {R X} c k.
Arguments Call {R X} c k.
Arguments Sql {R X} stmt k.

Fixpoint bind {A B : Type} (t : Task A) (f : A -> Task B) : Task B :=
  match t with
  | Ret a => f a
  | Throw e => Throw e
  | Respond res => Respond res
  | Await c k => Await c (fun x => bind (k x) f)
  | Call c k => Call c (fun x => bind (k x) f)
  | Sql stmt k => Sql stmt (fun x => bind (k x) f)
  end.

(** [try { t } catch (e) { h e }]; a [return] inside [try] leaves the
    function. *)
Fixpoint try_catch {A : Type} (t : Task A) (h : Exn -> Task A) : Task A :=
  match t with
  | Ret a => Ret a
  | Throw e => h e
  | Respond res => Respond res
  | Await c k => Await c (fun x => try_catch (k x) h)
  | Call c k => Call c (fun x => try_catch (k x) h)
  | Sql stmt k => Sql stmt (fun x => try_catch (k x) h)
  end.

Declare Scope task_scope.
Delimit Scope task_scope with task.
Notation "x <- t ;; k" := (bind t (fun x => k))
  (at level 100, t at next level, right associativity) : task_scope.
Notation "t ;;; k" := (bind t (fun _ => k))
  (at level 100, right associativity) : task_scope.
Local Open Scope task_scope.

Definition throw_if_none {X : Type} (x : option X) : Task X :=
  match x with Some v => Ret v | None => Throw Error end.

Definition await {X : Type} (c : Async X) : Task X :=
  Await c throw_if_none.
Definition call {X : Type} (c : Lib X) : Task X :=
  Call c throw_if_none.
(** A [SELECT]. *)
Definition query {X : Type} (q : Db -> X) : Task X :=
  Sql (fun db => (Some (q db), db)) throw_if_none.
(** An [UPDATE] that cannot fail. *)
Definition exec (u : Db -> Db) : Task unit :=
  Sql (fun db => (Some tt, u db)) throw_if_none.
(** A statement that may throw. *)
Definition exec_or_throw (u : Db -> option Db) : Task unit :=
  Sql (fun db => match u db with
                 | Some db' => (Some tt, db')
                 | None => (None, db)
                 end) throw_if_none.

(** [Schema.parse(req.body)]: a body that the schema rejects is [None]. *)
Definition parse {I : Type} (body : option I) : Task I :=
  match body with Some i => Ret i | None => Throw ZodError end.

(** The [catch (err)] of every handler. *)
Definition handler_catch (e : Exn) : Task Empty_set :=
  match e with
  | ZodError => Respond invalid_input
  | Error => Respond internal_server_error
  end.

(** How a run ends. *)
Inductive Final (R : Type) : Type :=
| Returned (r : R)
| Uncaught (e : Exn)
| Sent (res : Response).
Arguments Returned {R} r.
Arguments Uncaught {R} e.
Arguments Sent {R} res.

(** Run a task to its end with no other request in between: the result, the
    store and the outside calls made, in order. *)
Fixpoint run {R : Type} (env : Env) (t : Task R) (db : Db)
  : Final R * Db * list Event :=
  match t with
  | Ret r => (Returned r, db, [])
  | Throw e => (Uncaught e, db, [])
  | Respond res => (Sent res, db, [])
  | Await c k =>
      let '(f, db', tr) := run env (k (answer env _ c)) db in
      (f, db', awaited c :: tr)
  | Call c k =>
      let '(f, db', tr) := run env (k (returns env _ c)) db in
      (f, db', called c :: tr)
  | Sql stmt k =>
      let '(x, db1) := stmt db in run env (k x) db1
  end.

(** Run the synchronous segment at the head of a task: up to the next
    [await] or to the end. *)
Fixpoint advance {R : Type} (env : Env) (t : Task R) (db : Db) : Task R * Db :=
  match t with
  | Call c k => advance env (k (returns env _ c)) db
  | Sql stmt k => let '(x, db1) := stmt db in advance env (k x) db1
  | _ => (t, db)
  end.

(** One turn of the event loop for one request: settle the promise it waits
    for, if any, and run it up to its next [await]. *)
Definition turn {R : Type} (env : Env) (t : Task R) (db : Db) : Task R * Db :=
  match t with
  | Await c k => advance env (k (answer env _ c)) db
  | _ => advance env t db
  end.

(** The requests in flight, each with its own outside world. *)
Definition Pool (R : Type) : Type := list (Env * Task R).

Fixpoint turn_nth {R : Type} (i : nat) (p : Pool R) (db : Db) : Pool R * Db :=
  match p, i with
  | [], _ => ([], db)
  | (env, t) :: p', O =>
      let '(t', db') := turn env t db in ((env, t') :: p', db')
  | et :: p', S j =>
      let '(p'', db') := turn_nth j p' db in (et :: p'', db')
  end.

(** The event loop under a schedule: the list of the requests that get the
    next turn. *)
Fixpoint run_schedule {R : Type} (sched : list nat) (p : Pool R) (db : Db)
  : Pool R * Db :=
  match sched with
  | [] => (p, db)
  | i :: sched' => let '(p', db') := turn_nth i p db in run_schedule sched' p' db'
  end.

(* ------------------------------------------------------------------ *)
(** ** [server.ts] *)

Definition AUTH_MESSAGE_PREFIX : string := "OpenClaw Prop Firm: authorize ".
Arguments AUTH_MESSAGE_PREFIX : simpl never.
Arguments String.append : simpl never.

(** [async function analyzePnL(address)] *)
Definition analyzePnL (address : string) : Task Metrics :=
  fills <- await (userFills address) ;;
  Ret (analyzeFills fills).

(** [async function getBalance(address)]: each of the two reads has its own
    [try { ... } catch (e) {}], so a failed read leaves its value at 0 and
    the function itself never throws. *)
Definition getBalance (address : string) : Task Balance :=
  perps <- try_catch
             (state <- await (clearinghouseState address) ;;
              Ret (cs_accountValue state, cs_totalMarginUsed state,
                   cs_withdrawable state))
             (fun _ => Ret (0, 0, 0)) ;;
  spotValue <- try_catch
                 (spot <- await (spotClearinghouseState address) ;;
                  match find (fun b => String.eqb (sb_coin b) "USDC") spot with
                  | Some spotUsdc => Ret (sb_total spotUsdc)
                  | None => Ret 0
                  end)
                 (fun _ => Ret 0) ;;
  let '(perpsValue, totalMarginUsed, withdrawable) := perps in
  Ret {| accountValue := perpsValue + spotValue;
         totalMarginUsed := totalMarginUsed;
         withdrawable := withdrawable |}.

(** [app.post("/evaluate", ...)]; [bypassPnl] is the configuration flag
    [BYPASS_PNL_CHECK]. *)
Definition post_evaluate (bypassPnl : bool) (body : option EvaluateInput.t)
  : Task Empty_set :=
  try_catch
    (input <- parse body ;;
     let addr := EvaluateInput.hyperliquid_address input in
     (* 1. Check if already registered *)
     existingAgent <- query (getAgentByHyperliquidAddress addr) ;;
     match existingAgent with
     | Some existingAgent => Respond (already_registered existingAgent)
     | None =>
     (* 2. Verify wallet ownership *)
     let expectedMessage := (AUTH_MESSAGE_PREFIX ++ addr)%string in
     isValid <- await (verifyMessage addr expectedMessage
                         (EvaluateInput.signature input)) ;;
     if negb isValid then Respond (invalid_signature expectedMessage) else
     (* 3. Analyze PnL *)
     metrics <- analyzePnL addr ;;
     if negb (passes metrics) && negb bypassPnl then Respond (rejected metrics)
     else
     (* 4. Assign funded wallet *)
     wallet <- query getAvailableWallet ;;
     match wallet with
     | None => Respond no_funded_wallets
     | Some wallet =>
     (* 5. Get initial capital *)
     initialCapital <- try_catch
                         (bal <- getBalance (address wallet) ;;
                          Ret (accountValue bal))
                         (fun _ => Ret 0) ;;
     (* 6. Create agent *)
     uuid <- call randomUUID ;;
     now <- call Date_toISOString ;;
     let agent :=
       {| id := uuid;
          hl_address := Some addr;
          hyperliquid_address := None;
          funded_wallet_address := address wallet;
          initial_capital := Some initialCapital;
          current_pnl := 0;
          agent_profit := 0;
          firm_profit := 0;
          status := active;
          trade_count := 0;
          created_at := Some now |} in
     exec (assignWallet (address wallet) (id agent)) ;;;
     exec_or_throw (saveAgent agent) ;;;
     Respond (approved (negb (passes metrics)) agent metrics expectedMessage)
     end
     end)
    handler_catch.

(** [agent.status = s] *)
Definition set_status (agent : Agent) (s : Status) : Agent :=
  {| id := id agent;
     hl_address := hl_address agent;
     hyperliquid_address := hyperliquid_address agent;
     funded_wallet_address := funded_wallet_address agent;
     initial_capital := initial_capital agent;
     current_pnl := current_pnl agent;
     agent_profit := agent_profit agent;
     firm_profit := firm_profit agent;
     status := s;
     trade_count := trade_count agent;
     created_at := created_at agent |}.

(** [agent.trade_count++] *)
Definition incr_trade_count (agent : Agent) : Agent :=
  {| id := id agent;
     hl_address := hl_address agent;
     hyperliquid_address := hyperliquid_address agent;
     funded_wallet_address := funded_wallet_address agent;
     initial_capital := initial_capital agent;
     current_pnl := current_pnl agent;
     agent_profit := agent_profit agent;
     firm_profit := firm_profit agent;
     status := status agent;
     trade_count := (trade_count agent + 1)%Z;
     created_at := created_at agent |}.

(** [agent.initial_capital > 0
       ? (agent.initial_capital - bal.accountValue) / agent.initial_capital
       : 0]; [undefined > 0] is false. *)
Definition drawdown_of (agent : Agent) (bal : Balance) : Q :=
  match initial_capital agent with
  | Some ic => if JS.gt ic 0 then (ic - accountValue bal) / ic else 0
  | None => 0
  end.

(** ASCII [toUpperCase]. *)
Definition upper_ascii (c : Ascii.ascii) : Ascii.ascii :=
  let n := Ascii.nat_of_ascii c in
  if ((97 <=? n) && (n <=? 122))%nat then Ascii.ascii_of_nat (n - 32) else c.

Fixpoint toUpperCase (s : string) : string :=
  match s with
  | EmptyString => EmptyString
  | String c s' => String (upper_ascii c) (toUpperCase s')
  end.

(** [universe.findIndex(c => c.name === name)]; [None] is [-1]. *)
Fixpoint findIndex (name : string) (universe : list string) : option nat :=
  match universe with
  | [] => None
  | c :: rest =>
      if String.eqb c name then Some O
      else option_map S (findIndex name rest)
  end.

(** [if (x)] on an optional number. *)
Definition truthy (x : option Q) : bool :=
  match x with Some v => negb (Qeq_bool v 0) | None => false end.

Definition or_zero (x : option Q) : Q :=
  match x with Some v => v | None => 0 end.

(** [ordersToPlace] *)
Definition ordersToPlace (coinIndex : nat) (input : TradeInput.t) : list Order :=
  [ {| o_a := coinIndex; o_b := TradeInput.is_buy input;
       o_p := TradeInput.limit_px input; o_s := TradeInput.sz input;
       o_r := TradeInput.reduce_only input;
       o_t := match TradeInput.order_type input with
              | market => t_limit Ioc
              | limit => t_limit Gtc
              end |} ]
  ++ (if truthy (TradeInput.tp_px input) then
        [ {| o_a := coinIndex; o_b := negb (TradeInput.is_buy input);
             o_p := or_zero (TradeInput.tp_px input);
             o_s := TradeInput.sz input; o_r := true;
             o_t := t_trigger true (or_zero (TradeInput.tp_px input)) tp |} ]
      else [])
  ++ (if truthy (TradeInput.sl_px input) then
        [ {| o_a := coinIndex; o_b := negb (TradeInput.is_buy input);
             o_p := or_zero (TradeInput.sl_px input);
             o_s := TradeInput.sz input; o_r := true;
             o_t := t_trigger true (or_zero (TradeInput.sl_px input)) sl |} ]
      else []).

(** The first part of [app.post("/trade", ...)], up to the comment
    [// Execute trade]: it responds, or falls through with the agent object
    and its wallet.  The source has one [try { ... } catch {}] around the
    balance read, the assignment [agent.status = "revoked"] and
    [saveAgent(agent)]; a throw of [saveAgent] leaves the assignment done,
    which the inner [try_catch] renders. *)
Definition trade_gate (input : TradeInput.t) : Task (Agent * FundedWallet) :=
  agent <- query (getAgent (TradeInput.agent_id input)) ;;
  match agent with
  | None => Respond agent_not_found
  | Some agent =>
  if Status_eqb (status agent) revoked then Respond access_revoked else
  if (RISK_GATES.MAX_DAILY_TRADES <=? trade_count agent)%Z
  then Respond daily_trade_limit else
  (* Drawdown check *)
  wallet <- query (getWalletForAgent (id agent)) ;;
  match wallet with
  | None => Respond no_wallet_assigned
  | Some wallet =>
  agent' <- try_catch
              (bal <- getBalance (address wallet) ;;
               let drawdown := drawdown_of agent bal in
               if JS.ge drawdown RISK_GATES.DRAWDOWN_KILL then
                 try_catch
                   (exec_or_throw (saveAgent (set_status agent revoked)) ;;;
                    Respond (drawdown_exceeded drawdown))
                   (fun _ => Ret (set_status agent revoked))
               else Ret agent)
              (fun _ => Ret agent) ;;
  Ret (agent', wallet)
  end
  end.

(** The rest of [app.post("/trade", ...)]: [// Execute trade] and the profit
    split.  [wallet.privateKey] is [undefined], the row has no such
    column. *)
Definition trade_execute (input : TradeInput.t) (agent : Agent)
    (wallet : FundedWallet) : Task Empty_set :=
  account <- call (privateKeyToAccount None) ;;
  (* Look up coin index *)
  universe <- await meta ;;
  match findIndex (toUpperCase (TradeInput.coin input)) universe with
  | None => Respond (coin_not_found (TradeInput.coin input))
  | Some coinIndex =>
  (* 1. Update Leverage if requested *)
  (if truthy (TradeInput.leverage input) then
     try_catch
       (await (updateLeverage account coinIndex
                 (or_zero (TradeInput.leverage input))))
       (fun _ => Ret tt)
   else Ret tt) ;;;
  (* 2. Build orders array *)
  result <- await (order account (ordersToPlace coinIndex input)
                     (if truthy (TradeInput.tp_px input)
                         || truthy (TradeInput.sl_px input)
                      then normalTpsl else na)) ;;
  let agent := incr_trade_count agent in
  (* Check for closed PnL and calculate profit split *)
  split <- try_catch
             (fills <- await (userFills (address wallet)) ;;
              match last (map Some fills) None with
              | Some latestFill => Ret (applyClosedPnl agent (closedPnl latestFill))
              | None => Ret (agent, None)
              end)
             (fun _ => Ret (agent, None)) ;;
  exec_or_throw (saveAgent (fst split)) ;;;
  Respond (executed (id (fst split)) result (snd split))
  end.

(** [app.post("/trade", ...)] *)
Definition post_trade (body : option TradeInput.t) : Task Empty_set :=
  try_catch
    (input <- parse body ;;
     gate <- trade_gate input ;;
     trade_execute input (fst gate) (snd gate))
    handler_catch.

(** [app.post("/cancel", ...)] *)
Definition post_cancel (body : option CancelInput.t) : Task Empty_set :=
  try_catch
    (input <- parse body ;;
     agent <- query (getAgent (CancelInput.agent_id input)) ;;
     match agent with
     | None => Respond agent_not_found
     | Some agent =>
     if Status_eqb (status agent) revoked then Respond cancel_access_revoked
     else
     wallet <- query (getWalletForAgent (id agent)) ;;
     match wallet with
     | None => Respond no_wallet_assigned
     | Some wallet =>
     universe <- await meta ;;
     match findIndex (toUpperCase (CancelInput.coin input)) universe with
     | None => Respond (coin_not_found (CancelInput.coin input))
     | Some coinIndex =>
     account <- call (privateKeyToAccount None) ;;
     result <- await (cancel account coinIndex (CancelInput.oid input)) ;;
     Respond (cancel_executed (id agent) result)
     end
     end
     end)
    handler_catch.

(* ------------------------------------------------------------------ *)
(** ** Fill histories *)

(** The fill history with the given closed PnLs. *)
Definition fills_of (pnls : list Q) : list Fill :=
  map (fun p => {| closedPnl := p |}) pnls.

(** The points of the running PnL of a history that starts at [r]. *)
Fixpoint running_from (r : Q) (fills : list Fill) : list Q :=
  match fills with
  | [] => []
  | fill :: rest => (r + closedPnl fill) :: running_from (r + closedPnl fill) rest
  end.

Definition running_points (fills : list Fill) : list Q := running_from 0 fills.

(** Twelve trades, seven wins, a total of 300 and a largest drawdown of
    5 %. *)
Definition history_12 : list Fill :=
  fills_of [100; -5; 60; -5; 50; -5; 40; -5; 30; -5; 25; 25].

(** Ten trades whose total of -500.004 is displayed as -500. *)
Definition history_rounding : list Fill :=
  fills_of [-500.004; 0; 0; 0; 0; 0; 0; 0; 0; 0].

(** Ten trades: a profit of 10, then a loss of 30. *)
Definition history_deep : list Fill :=
  fills_of [10; -30; 0; 0; 0; 0; 0; 0; 0; 0].

(** Ten trades that never leave a running PnL below zero. *)
Definition history_shallow : list Fill :=
  fills_of [10; -4; 0; 0; 0; 0; 0; 0; 0; 0].

(** Ten losing trades. *)
Definition history_losses : list Fill :=
  fills_of [-1; -2; 0; -1; -1; -3; 0; -1; -1; -1].

(** The reading under which a history shorter than [MIN_TRADES] is failed
    for its size while its other metrics are computed on the sample. *)
Definition short_history_metrics_from_sample (fills : list Fill) : Prop :=
  (length fills < RISK_GATES.MIN_TRADES)%nat ->
  passes (analyzeFills fills) = false
  /\ In (InsufficientTrades (length fills) RISK_GATES.MIN_TRADES)
        (reasons (analyzeFills fills))
  /\ total_pnl (analyzeFills fills)
     == JS.Math_round (totalPnl (loop fills) * 100) / 100
  /\ win_rate (analyzeFills fills)
     == JS.Math_round (winRate fills * 1000) / 1000
  /\ max_drawdown (analyzeFills fills)
     == JS.Math_round (maxDrawdown (loop fills) * 1000) / 1000.

(** The reading under which one positive point of the running PnL puts the
    maximum drawdown in [[0, 1]], and a PnL that never increases makes
    it 0. *)
Definition drawdown_within_unit_interval (fills : list Fill) : Prop :=
  (Exists (fun r => 0 < r) (running_points fills) ->
   0 <= maxDrawdown (loop fills) /\ maxDrawdown (loop fills) <= 1)
  /\ (Forall (fun fill => closedPnl fill <= 0) fills ->
      maxDrawdown (loop fills) == 0).

(** An agent object as [/evaluate] creates it. *)
Definition new_agent (uuid addr wallet : string) (initialCapital : Q)
    (now : string) : Agent :=
  {| id := uuid;
     hl_address := Some addr;
     hyperliquid_address := None;
     funded_wallet_address := wallet;
     initial_capital := Some initialCapital;
     current_pnl := 0;
     agent_profit := 0;
     firm_profit := 0;
     status := active;
     trade_count := 0;
     created_at := Some now |}.

(* ------------------------------------------------------------------ *)
(** ** Stores, requests and outside worlds to run the handlers on *)

(** The agent rows of an address. *)
Definition agents_for (addr : string) (db : Db) : list AgentRow :=
  filter (fun r => String.eqb (row_hyperliquid_address r) addr) (agents db).

(** Identifiers as the schemas of [types.ts] accept them: version 4 UUIDs
    for agents, 20-byte hexadecimal addresses. *)
Abbreviation uuid_1 := "11111111-1111-4111-8111-111111111111"%string
  (only parsing).
Abbreviation uuid_2 := "22222222-2222-4222-8222-222222222222"%string
  (only parsing).
Abbreviation uuid_r := "aaaaaaaa-aaaa-4aaa-8aaa-aaaaaaaaaaaa"%string
  (only parsing).
Abbreviation uuid_q := "bbbbbbbb-bbbb-4bbb-8bbb-bbbbbbbbbbbb"%string
  (only parsing).
Abbreviation uuid_n := "cccccccc-cccc-4ccc-8ccc-cccccccccccc"%string
  (only parsing).
Abbreviation uuid_x := "dddddddd-dddd-4ddd-8ddd-dddddddddddd"%string
  (only parsing).
Abbreviation uuid_nobody := "eeeeeeee-eeee-4eee-8eee-eeeeeeeeeeee"%string
  (only parsing).
Abbreviation uuid_any := "ffffffff-ffff-4fff-8fff-ffffffffffff"%string
  (only parsing).
Abbreviation addr_alice := "0xa11ce00000000000000000000000000000000000"%string
  (only parsing).
Abbreviation addr_bob := "0xb0b0000000000000000000000000000000000000"%string
  (only parsing).
Abbreviation addr_r := "0xdead000000000000000000000000000000000000"%string
  (only parsing).
Abbreviation addr_q := "0xbeef000000000000000000000000000000000000"%string
  (only parsing).
Abbreviation addr_n := "0xcafe000000000000000000000000000000000000"%string
  (only parsing).
Abbreviation w1_address := "0xf100000000000000000000000000000000000000"%string
  (only parsing).
Abbreviation w2_address := "0xf200000000000000000000000000000000000000"%string
  (only parsing).
Abbreviation w3_address := "0xf300000000000000000000000000000000000000"%string
  (only parsing).
Abbreviation w4_address := "0xf400000000000000000000000000000000000000"%string
  (only parsing).
Abbreviation w9_address := "0xf900000000000000000000000000000000000000"%string
  (only parsing).

(** What the outside answers, call by call, whatever the arguments. *)
Record World : Type := {
  w_verifyMessage : option bool;
  w_userFills : option (list Fill);
  w_clearinghouseState : option ClearinghouseState;
  w_spotClearinghouseState : option (list SpotBalance);
  w_meta : option (list string);
  w_updateLeverage : option unit;
  w_order : option HlResponse;
  w_cancel : option HlResponse;
  w_randomUUID : string;
  w_now : string;
  w_privateKeyToAccount : option Account
}.

Definition env_of (w : World) : Env :=
  {| answer := fun X c =>
       match c in Async X return option X with
       | verifyMessage _ _ _ => w_verifyMessage w
       | userFills _ => w_userFills w
       | clearinghouseState _ => w_clearinghouseState w
       | spotClearinghouseState _ => w_spotClearinghouseState w
       | meta => w_meta w
       | updateLeverage _ _ _ => w_updateLeverage w
       | order _ _ _ => w_order w
       | cancel _ _ _ => w_cancel w
       end;
     returns := fun X c =>
       match c in Lib X return option X with
       | randomUUID => Some (w_randomUUID w)
       | Date_toISOString => Some (w_now w)
       | privateKeyToAccount _ => w_privateKeyToAccount w
       end |}.

(** An exchange on which the account is worth [value], for the request
    that is given the identifier [uuid]. *)
Definition world (uuid : string) (fills : list Fill) (value : Q) : World :=
  {| w_verifyMessage := Some true;
     w_userFills := Some fills;
     w_clearinghouseState :=
       Some {| cs_accountValue := value; cs_totalMarginUsed := 0;
               cs_withdrawable := value |};
     w_spotClearinghouseState := Some [];
     w_meta := Some ["BTC"; "ETH"]%string;
     w_updateLeverage := Some tt;
     w_order := Some "ok"%string;
     w_cancel := Some "ok"%string;
     w_randomUUID := uuid;
     w_now := "2025-01-01T00:00:00.000Z";
     w_privateKeyToAccount := None |}.

(** The same, with both balance reads failing. *)
Definition world_no_balance (uuid : string) (fills : list Fill) : World :=
  {| w_verifyMessage := Some true;
     w_userFills := Some fills;
     w_clearinghouseState := None;
     w_spotClearinghouseState := None;
     w_meta := Some ["BTC"; "ETH"]%string;
     w_updateLeverage := Some tt;
     w_order := Some "ok"%string;
     w_cancel := Some "ok"%string;
     w_randomUUID := uuid;
     w_now := "2025-01-01T00:00:00.000Z";
     w_privateKeyToAccount := None |}.

(** A store with no agent and one free wallet. *)
Definition db_one_wallet : Db :=
  {| agents := [];
     funded_wallets :=
       [ {| address := w1_address; api_id := "acc_1"; assigned_to := None |} ] |}.

(** A store with no agent and no wallet. *)
Definition db_empty : Db := {| agents := []; funded_wallets := [] |}.

Definition alice : EvaluateInput.t :=
  {| EvaluateInput.hyperliquid_address := addr_alice;
     EvaluateInput.signature := "0x5a" |}.

Definition bob : EvaluateInput.t :=
  {| EvaluateInput.hyperliquid_address := addr_bob;
     EvaluateInput.signature := "0x5b" |}.

(** A buy of one BTC by the agent [agentId]. *)
Definition buy_btc (agentId : string) : TradeInput.t :=
  {| TradeInput.agent_id := agentId;
     TradeInput.coin := "btc";
     TradeInput.is_buy := true;
     TradeInput.sz := 1;
     TradeInput.limit_px := 50000;
     TradeInput.order_type := limit;
     TradeInput.reduce_only := false;
     TradeInput.leverage := None;
     TradeInput.tp_px := None;
     TradeInput.sl_px := None |}.

(** The object that [getAgent] returns for the row that [saveAgent] wrote
    from [agent], whose [hl_address] was [addr]. *)
Definition reloaded (agent : Agent) (addr : string) : Agent :=
  {| id := id agent;
     hl_address := None;
     hyperliquid_address := Some addr;
     funded_wallet_address := funded_wallet_address agent;
     initial_capital := None;
     current_pnl := current_pnl agent;
     agent_profit := agent_profit agent;
     firm_profit := firm_profit agent;
     status := status agent;
     trade_count := trade_count agent;
     created_at := None |}.

(** The store after a run. *)
Definition store_after {R : Type} (x : Final R * Db * list Event) : Db :=
  snd (fst x).

(** The store after [alice] has been onboarded, with bypass off, on a wallet
    worth 1000. *)
Definition db_alice : Db :=
  store_after (run (env_of (world uuid_1 history_12 1000))
                 (post_evaluate false (Some alice)) db_one_wallet).

(** [alice] as the store returns her after onboarding. *)
Definition alice_stored : Agent :=
  reloaded (new_agent uuid_1 addr_alice w1_address 1000
              "2025-01-01T00:00:00.000Z") addr_alice.

(** The wallet of [db_one_wallet] once assigned to [alice]. *)
Definition wallet_1 : FundedWallet :=
  {| address := w1_address; api_id := "acc_1"; assigned_to := Some uuid_1 |}.

(** A world in which [privateKeyToAccount] returns an account even for the
    absent key. *)
Definition with_account (w : World) : World :=
  {| w_verifyMessage := w_verifyMessage w;
     w_userFills := w_userFills w;
     w_clearinghouseState := w_clearinghouseState w;
     w_spotClearinghouseState := w_spotClearinghouseState w;
     w_meta := w_meta w;
     w_updateLeverage := w_updateLeverage w;
     w_order := w_order w;
     w_cancel := w_cancel w;
     w_randomUUID := w_randomUUID w;
     w_now := w_now w;
     w_privateKeyToAccount := Some "account"%string |}.

(** The grouping of the order of a trade. *)
Definition grouping_of (input : TradeInput.t) : Grouping :=
  if truthy (TradeInput.tp_px input) || truthy (TradeInput.sl_px input)
  then normalTpsl else na.

(* ------------------------------------------------------------------ *)
(** ** Exclusive assignment *)

(** No two agents hold the same funded wallet. *)
Definition wallet_exclusive (db : Db) : Prop :=
  NoDup (map row_funded_wallet_address (agents db)).

(** No two agents have the same external address. *)
Definition address_unique (db : Db) : Prop :=
  NoDup (map row_hyperliquid_address (agents db)).

(** The wallet that an agent holds is not free in the pool. *)
Definition holders_assigned (db : Db) : Prop :=
  forall r w,
    In r (agents db) -> In w (funded_wallets db) ->
    address w = row_funded_wallet_address r -> is_free w = false.

Definition store_ok (db : Db) : Prop :=
  wallet_exclusive db /\ address_unique db /\ holders_assigned db.

(** The requests that write to the store or gate a trade. *)
Inductive Request : Type :=
| Evaluate (bypassPnl : bool) (body : option EvaluateInput.t)
| Trade (body : option TradeInput.t)
| Cancel (body : option CancelInput.t).

Definition handler (q : Request) : Task Empty_set :=
  match q with
  | Evaluate bypassPnl body => post_evaluate bypassPnl body
  | Trade body => post_trade body
  | Cancel body => post_cancel body
  end.

(** Requests served one after the other, each to its end. *)
Fixpoint serve (reqs : list (Env * Request)) (db : Db) : Db :=
  match reqs with
  | [] => db
  | (env, q) :: rest => serve rest (store_after (run env (handler q) db))
  end.

(** Requests in flight together. *)
Definition in_flight (reqs : list (Env * Request)) : Pool Empty_set :=
  map (fun eq => (fst eq, handler (snd eq))) reqs.

(** The reading under which the assignment stays exclusive whatever the
    interleaving of the requests. *)
Definition exclusive_under_interleaving : Prop :=
  forall (reqs : list (Env * Request)) (sched : list nat) (db : Db),
    store_ok db ->
    wallet_exclusive (snd (run_schedule sched (in_flight reqs) db)).

(** [alice] and [bob] ask for a wallet at the same time. *)
Definition two_onboardings : list (Env * Request) :=
  [ (env_of (world uuid_1 history_12 1000), Evaluate false (Some alice));
    (env_of (world uuid_2 history_12 1000), Evaluate false (Some bob)) ].

(** Both requests are past [getAvailableWallet] before either reaches
    [assignWallet]. *)
Definition overlapping : list nat := [0; 0; 0; 1; 1; 1; 0; 0; 1; 1]%nat.



(** The response that a finished request has sent. *)
Definition sent (t : Task Empty_set) : option Response :=
  match t with Respond res => Some res | _ => None end.

(** The wallet in an approval. *)
Definition approved_wallet (res : option Response) : option string :=
  match res with
  | Some (approved _ agent _ _) => Some (funded_wallet_address agent)
  | _ => None
  end.

(** Every statement that a task runs on the store keeps [P]. *)
Inductive keeps (P : Db -> Prop) {R : Type} : Task R -> Prop :=
| keeps_Ret (r : R) : keeps P (Ret r)
| keeps_Throw (e : Exn) : keeps P (Throw e)
| keeps_Respond (res : Response) : keeps P (Respond res)
| keeps_Await {X : Type} (c : Async X) (k : option X -> Task R) :
    (forall x, keeps P (k x)) -> keeps P (Await c k)
| keeps_Call {X : Type} (c : Lib X) (k : option X -> Task R) :
    (forall x, keeps P (k x)) -> keeps P (Call c k)
| keeps_Sql {X : Type} (stmt : Db -> option X * Db) (k : option X -> Task R) :
    (forall db, P db -> P (snd (stmt db))) ->
    (forall x, keeps P (k x)) -> keeps P (Sql stmt k).

(* ------------------------------------------------------------------ *)
(** ** Sums over fill histories *)

(** The winning fills of a history. *)
Definition winners (fills : list Fill) : list Fill :=
  filter (fun fill => JS.gt (closedPnl fill) 0) fills.

(** The sum of the closed PnLs of a history. *)
Fixpoint sum_pnl (fills : list Fill) : Q :=
  match fills with
  | [] => 0
  | fill :: rest => closedPnl fill + sum_pnl rest
  end.

(* ------------------------------------------------------------------ *)
(** ** The input schemas ([types.ts]) *)

(** [.optional()] with a check: an absent value passes. *)
Definition optional (check : Q -> bool) (x : option Q) : bool :=
  match x with Some v => check v | None => true end.

(** [z.number().positive()] *)
Definition positive (x : Q) : bool := JS.gt x 0.

(** The checks of [TradeInputSchema] on [coin] and on the numbers:
    [coin: z.string().min(1)], [sz] and [limit_px] positive,
    [leverage: z.number().min(1).max(50).optional()], [tp_px] and [sl_px]
    positive when given.  (The [uuid] check of [agent_id] is not part of
    it.) *)
Definition TradeInputSchema_checks (input : TradeInput.t) : bool :=
  (1 <=? String.length (TradeInput.coin input))%nat
  && positive (TradeInput.sz input)
  && positive (TradeInput.limit_px input)
  && optional (fun v => JS.ge v 1 && JS.ge 50 v) (TradeInput.leverage input)
  && optional positive (TradeInput.tp_px input)
  && optional positive (TradeInput.sl_px input).



(* ------------------------------------------------------------------ *)
(** ** Start of the process ([db.ts] and the head of [server.ts]) *)

(** [db.exec(...)] when [db.ts] is loaded: [agents] is created if it does
    not exist, [funded_wallets] is dropped and created empty. *)
Definition db_init (db : Db) : Db :=
  {| agents := agents db; funded_wallets := [] |}.

(** The object given to [saveWallet].  [interface FundedWallet] declares
    [apiId], [address] and [assigned_to]; the loop of [server.ts] builds
    [{ privateKey, address, assigned_to }]. *)
Record WalletObject : Type := {
  wo_privateKey : option string;
  wo_apiId : option string;
  wo_address : string;
  wo_assigned_to : option string
}.

(** [saveWallet(wallet)]: [INSERT OR IGNORE INTO funded_wallets (address,
    api_id, assigned_to) VALUES (@address, @apiId, @assigned_to)].  An object
    without [apiId] has no value for the [NOT NULL] column [api_id]: no row
    is written and the statement throws ([None]).  A row whose address is in
    the table already is ignored. *)
Definition saveWallet (wallet : WalletObject) (db : Db) : option Db :=
  match wo_apiId wallet with
  | None => None
  | Some apiId =>
      if existsb (fun w => String.eqb (address w) (wo_address wallet))
           (funded_wallets db)
      then Some db
      else Some {| agents := agents db;
                   funded_wallets :=
                     funded_wallets db
                     ++ [ {| address := wo_address wallet;
                             api_id := apiId;
                             assigned_to := wo_assigned_to wallet |} ] |}
  end.

(** [s.split(",")] *)
Fixpoint split_comma (s : string) : list string :=
  match s with
  | EmptyString => [EmptyString]
  | String c rest =>
      if Ascii.eqb c (Ascii.ascii_of_nat 44) then EmptyString :: split_comma rest
      else match split_comma rest with
           | seg :: segs => String c seg :: segs
           | [] => [String c EmptyString]
           end
  end.

(** [(process.env.FUNDED_WALLETS || "").split(",").filter(Boolean)] *)
Definition rawKeys (FUNDED_WALLETS : option string) : list string :=
  filter (fun key => negb (String.eqb key ""))
    (split_comma (match FUNDED_WALLETS with Some v => v | None => ""%string end)).

(** [key.startsWith("0x") ? key : `0x${key}`] *)
Definition with_0x (key : string) : string :=
  if String.prefix "0x" key then key else ("0x" ++ key)%string.

(** [for (const key of rawKeys) { ... saveWallet(...) }]; of the account
    that [privateKeyToAccount] returns the model keeps the address. *)
Fixpoint load_wallets (keys : list string) : Task unit :=
  match keys with
  | [] => Ret tt
  | key :: rest =>
      let pk := with_0x key in
      account <- call (privateKeyToAccount (Some pk)) ;;
      exec_or_throw
        (saveWallet {| wo_privateKey := Some pk; wo_apiId := None;
                       wo_address := account; wo_assigned_to := None |}) ;;;
      load_wallets rest
  end.

(* ------------------------------------------------------------------ *)
(** ** The read-only routes of [server.ts] that use the store *)

(** The answers of [GET /stats/:agent_id]; [RISK_GATES] is a constant of the
    answer and is left out. *)
Inductive StatsResponse : Type :=
| stats_not_found                                   (* 404 *)
| stats (agent : Agent) (balance : option Balance)  (* 200; [None] is [null] *)
| stats_error.                                      (* 500 *)

(** [app.get("/stats/:agent_id", ...)] *)
Definition get_stats (agent_id : string) : Task StatsResponse :=
  try_catch
    (agent <- query (getAgent agent_id) ;;
     match agent with
     | None => Ret stats_not_found
     | Some agent =>
         balance <- try_catch
                      (bal <- getBalance (funded_wallet_address agent) ;;
                       Ret (Some bal))
                      (fun _ => Ret None) ;;
         Ret (stats agent balance)
     end)
    (fun _ => Ret stats_error).

(** The text of a status in the table. *)
Definition status_text (s : Status) : string :=
  match s with active => "active" | revoked => "revoked" end.

(** A value of [req.query]: the query string is parsed by [qs], so a
    parameter is a string, an array ([?status=a&status=b], [?status[]=a])
    or an object ([?status[k]=v]), of such values again. *)
#[local] Unset Elimination Schemes.
Inductive QueryValue : Type :=
| q_string (s : string)
| q_array (items : list QueryValue)
| q_object (fields : list (string * QueryValue)).
#[local] Set Elimination Schemes.

(** What [.all(x)] binds to the one [?] of a statement.  A string is the
    parameter.  An array is the list of the parameters: it has to have one
    element, and that a string.  An object is a set of named parameters, of
    which the statement has none.  [None]: the call throws. *)
Definition bound_parameter (x : QueryValue) : option string :=
  match x with
  | q_string s => Some s
  | q_array [q_string s] => Some s
  | _ => None
  end.

(** [getAllAgents(statusFilter)] with the filter as the value it is;
    [statusFilter === "all"] holds of the string only. *)
Definition getAllAgentsBy (statusFilter : QueryValue) (db : Db)
  : option (list Agent) :=
  let all :=
    match statusFilter with
    | q_string s => String.eqb s "all"
    | _ => false
    end in
  if all then Some (map row_as_Agent (agents db))
  else match bound_parameter statusFilter with
       | Some s =>
           Some (map row_as_Agent
                   (filter (fun r => String.eqb (status_text (row_status r)) s)
                      (agents db)))
       | None => None
       end.

(** [app.get("/agents", ...)]: [{ agents: list, count: list.length }].  In
    [(_req.query.status as string) || "all"] an absent parameter and the
    empty string are falsy, every array and object is truthy.  The route
    has no [try]: [None] is an exception that leaves the handler. *)
Definition get_agents (query_status : option QueryValue) (db : Db)
  : option (list Agent * nat) :=
  let status :=
    match query_status with
    | None => q_string "all"
    | Some (q_string s) => if String.eqb s "" then q_string "all" else q_string s
    | Some v => v
    end in
  match getAllAgentsBy status db with
  | Some list => Some (list, length list)
  | None => None
  end.

(* ------------------------------------------------------------------ *)
(** ** More stores and worlds to run the handlers on *)

(** The free wallets of the pool. *)
Definition free_wallets (db : Db) : list FundedWallet :=
  filter is_free (funded_wallets db).

(** Every outside world of a list of requests returns another identifier
    than [id0]. *)
Definition fresh_for (id0 : string) (reqs : list (Env * Request)) : Prop :=
  Forall (fun eq => returns (fst eq) _ randomUUID <> Some id0) reqs.

(** A store with an active agent on a wallet, a revoked agent, an agent at
    its daily limit and an agent without wallet. *)
Definition db_mixed : Db :=
  {| agents :=
       [ {| row_id := uuid_1; row_hyperliquid_address := addr_alice;
            row_funded_wallet_address := w1_address; row_current_pnl := 0;
            row_firm_profit := 0; row_agent_profit := 0;
            row_trade_count := 0; row_status := active |};
         {| row_id := uuid_r; row_hyperliquid_address := addr_r;
            row_funded_wallet_address := w2_address; row_current_pnl := -200;
            row_firm_profit := 0; row_agent_profit := 0;
            row_trade_count := 3; row_status := revoked |};
         {| row_id := uuid_q; row_hyperliquid_address := addr_q;
            row_funded_wallet_address := w3_address; row_current_pnl := 10;
            row_firm_profit := 2; row_agent_profit := 8;
            row_trade_count := 50; row_status := active |};
         {| row_id := uuid_n; row_hyperliquid_address := addr_n;
            row_funded_wallet_address := w9_address; row_current_pnl := 0;
            row_firm_profit := 0; row_agent_profit := 0;
            row_trade_count := 0; row_status := active |} ];
     funded_wallets :=
       [ {| address := w1_address; api_id := "acc_1";
            assigned_to := Some uuid_1 |};
         {| address := w2_address; api_id := "acc_2";
            assigned_to := Some uuid_r |};
         {| address := w3_address; api_id := "acc_3";
            assigned_to := Some uuid_q |};
         {| address := w4_address; api_id := "acc_4"; assigned_to := None |} ] |}.

(** The revoked row of [db_mixed]. *)
Definition row_revoked : AgentRow :=
  {| row_id := uuid_r; row_hyperliquid_address := addr_r;
     row_funded_wallet_address := w2_address; row_current_pnl := -200;
     row_firm_profit := 0; row_agent_profit := 0;
     row_trade_count := 3; row_status := revoked |}.

(** A cancel of order 7 on BTC by the agent [agentId]. *)
Definition cancel_btc (agentId : string) : CancelInput.t :=
  {| CancelInput.agent_id := agentId;
     CancelInput.coin := "btc";
     CancelInput.oid := 7 |}.

(** A buy of one BTC with a take profit and a stop loss. *)
Definition buy_btc_tpsl (agentId : string) : TradeInput.t :=
  {| TradeInput.agent_id := agentId;
     TradeInput.coin := "btc";
     TradeInput.is_buy := true;
     TradeInput.sz := 1;
     TradeInput.limit_px := 50000;
     TradeInput.order_type := market;
     TradeInput.reduce_only := false;
     TradeInput.leverage := Some 5;
     TradeInput.tp_px := Some 55000;
     TradeInput.sl_px := Some 48000 |}.

(** A world in which the signature does not verify. *)
Definition world_bad_signature : World :=
  {| w_verifyMessage := Some false;
     w_userFills := Some history_12;
     w_clearinghouseState := None;
     w_spotClearinghouseState := None;
     w_meta := Some ["BTC"; "ETH"]%string;
     w_updateLeverage := Some tt;
     w_order := Some "ok"%string;
     w_cancel := Some "ok"%string;
     w_randomUUID := uuid_x;
     w_now := "2025-01-01T00:00:00.000Z";
     w_privateKeyToAccount := None |}.

(** Ten fills that fail on drawdown in this order, a gain of 100 and then a
    loss of 20 ... *)
Definition history_gain_first : list Fill :=
  fills_of [100; -20; 1; 1; 1; 1; 1; 1; 1; 1].

(** ... and pass in this one, the loss first. *)
Definition history_loss_first : list Fill :=
  fills_of [-20; 100; 1; 1; 1; 1; 1; 1; 1; 1].

(** Ten winning fills. *)
Definition history_wins : list Fill :=
  fills_of [1; 2; 3; 1; 2; 3; 1; 2; 3; 1].

(** The event is a call of [exchangeClient.order]. *)
Definition is_order (e : Event) : bool :=
  match e with
  | awaited c => match c with order _ _ _ => true | _ => false end
  | called _ => false
  end.

(** The answer of a run, when it has sent one. *)
Definition answer_of (x : Final Empty_set * Db * list Event) : option Response :=
  match fst (fst x) with Sent res => Some res | _ => None end.

(** The outside calls of a run. *)
Definition trace_of {R : Type} (x : Final R * Db * list Event) : list Event :=
  snd x.

(** No two agents have the same identifier. *)
Definition id_unique (db : Db) : Prop := NoDup (map row_id (agents db)).

(** 1 for an optional field that is given, 0 for one that is not. *)
Definition given (x : option Q) : nat :=
  match x with Some _ => 1%nat | None => 0%nat end.

(** What a request may do to a wallet of the pool: nothing but assign it. *)
Definition never_released (w w' : FundedWallet) : Prop :=
  address w' = address w /\ api_id w' = api_id w
  /\ (is_free w = false -> is_free w' = false).


(** What [assignWallet] does to one row of the pool. *)
Definition assign_to (target agentId : string) (w : FundedWallet)
  : FundedWallet :=
  if String.eqb (address w) target
  then {| address := address w; api_id := api_id w;
          assigned_to := Some agentId |}
  else w.

(* ================================================================== *)
(** * Properties *)

(** ** Comparisons of numbers *)

Section Comparisons.

Variables a b : Q.

Lemma lt_true : JS.lt a b = true <-> a < b.
Proof.
  unfold JS.lt. rewrite negb_true_iff. split; intro H.
  - apply Qnot_le_lt. intro L. apply Qle_bool_iff in L. congruence.
  - destruct (Qle_bool b a) eqn:E; [|reflexivity].
    apply Qle_bool_iff in E. lra.
Qed.

Lemma lt_false : JS.lt a b = false <-> b <= a.
Proof.
  unfold JS.lt. rewrite negb_false_iff. apply Qle_bool_iff.
Qed.

Lemma ge_true : JS.ge a b = true <-> b <= a.
Proof. unfold JS.ge. apply Qle_bool_iff. Qed.

Lemma ge_false : JS.ge a b = false <-> a < b.
Proof.
  unfold JS.ge. split; intro H.
  - apply Qnot_le_lt. intro L. apply Qle_bool_iff in L. congruence.
  - destruct (Qle_bool b a) eqn:E; [|reflexivity].
    apply Qle_bool_iff in E. lra.
Qed.

End Comparisons.

Lemma gt_true (a b : Q) : JS.gt a b = true <-> b < a.
Proof. unfold JS.gt. apply lt_true. Qed.

Lemma gt_false (a b : Q) : JS.gt a b = false <-> a <= b.
Proof. unfold JS.gt. apply lt_false. Qed.

(** [Math.round] is within one half of its argument. *)
Lemma Math_round_bounds (x : Q) :
  x - (1 # 2) < JS.Math_round x /\ JS.Math_round x <= x + (1 # 2).
Proof.
  unfold JS.Math_round. split.
  - pose proof (Qlt_floor (x + (1 # 2))) as H.
    rewrite inject_Z_plus in H. change (inject_Z 1) with 1 in H. lra.
  - apply Qfloor_le.
Qed.

Lemma Math_round_nonneg (x : Q) : 0 <= x -> 0 <= JS.Math_round x.
Proof.
  intro H. unfold JS.Math_round. change 0 with (inject_Z 0).
  rewrite <- Zle_Qle. rewrite <- (Qfloor_Z 0). apply Qfloor_resp_le.
  change (inject_Z 0) with 0. lra.
Qed.

(** [Math.round] of a value between two integers stays between them. *)
Lemma Math_round_between (lo hi : Z) (x : Q) :
  inject_Z lo <= x -> x <= inject_Z hi ->
  inject_Z lo <= JS.Math_round x /\ JS.Math_round x <= inject_Z hi.
Proof.
  intros Hlo Hhi. unfold JS.Math_round. rewrite <- !Zle_Qle. split.
  - rewrite <- (Qfloor_Z lo). apply Qfloor_resp_le. lra.
  - assert (L : (Qfloor (x + (1 # 2)) < hi + 1)%Z).
    { rewrite Zlt_Qlt. eapply Qle_lt_trans; [apply Qfloor_le|].
      rewrite inject_Z_plus. change (inject_Z 1) with 1. lra. }
    lia.
Qed.

(* ------------------------------------------------------------------ *)
(** ** The performance analyzer *)

Section Analyzer.

(** The pass/fail verdict in terms of three booleans, one per gate. *)
Lemma gate_reasons_nil (fills : list Fill) :
  gate_reasons fills = [] <->
  JS.lt (winRate fills) RISK_GATES.MIN_WINRATE = false
  /\ JS.lt (totalPnl (loop fills)) RISK_GATES.MIN_TOTAL_PNL = false
  /\ JS.gt (maxDrawdown (loop fills)) RISK_GATES.MAX_DRAWDOWN = false.
Proof.
  unfold gate_reasons.
  destruct (JS.lt (winRate fills) _), (JS.lt (totalPnl _) _), (JS.gt _ _);
    cbn; intuition congruence.
Qed.

End Analyzer.

(** C4.  For a fill history of at least [MIN_TRADES] fills, [passes] holds
    exactly when the unrounded win rate, total PnL and maximum drawdown meet
    their three thresholds; every violated gate contributes exactly one
    reason and all of them are reported, so [reasons] is empty exactly when
    [passes]; and the three returned numbers are the roundings of the
    unrounded metrics, which play no part in the verdict. *)
Theorem analyzer_verdict (fills : list Fill) :
  (RISK_GATES.MIN_TRADES <= length fills)%nat ->
  let m := analyzeFills fills in
  (passes m = true <->
     RISK_GATES.MIN_WINRATE <= winRate fills
     /\ RISK_GATES.MIN_TOTAL_PNL <= totalPnl (loop fills)
     /\ maxDrawdown (loop fills) <= RISK_GATES.MAX_DRAWDOWN)
  /\ (exists low_winrate low_pnl high_drawdown : bool,
         (low_winrate = true <-> winRate fills < RISK_GATES.MIN_WINRATE)
         /\ (low_pnl = true <-> totalPnl (loop fills) < RISK_GATES.MIN_TOTAL_PNL)
         /\ (high_drawdown = true <->
               RISK_GATES.MAX_DRAWDOWN < maxDrawdown (loop fills))
         /\ reasons m =
              (if low_winrate then [WinRateBelow (winRate fills)] else [])
              ++ (if low_pnl then [PnlBelow (totalPnl (loop fills))] else [])
              ++ (if high_drawdown
                  then [DrawdownAbove (maxDrawdown (loop fills))] else []))
  /\ (reasons m = [] <-> passes m = true)
  /\ total_pnl m = JS.Math_round (totalPnl (loop fills) * 100) / 100
  /\ win_rate m = JS.Math_round (winRate fills * 1000) / 1000
  /\ max_drawdown m = JS.Math_round (maxDrawdown (loop fills) * 1000) / 1000
  /\ total_trades m = length fills.
Proof.
  intros Hlen m. subst m. unfold analyzeFills.
  assert (E : (length fills <? RISK_GATES.MIN_TRADES)%nat = false)
    by (apply Nat.ltb_ge; exact Hlen).
  rewrite E. cbn [passes reasons total_pnl win_rate max_drawdown total_trades].
  assert (P : (length (gate_reasons fills) =? 0)%nat = true
              <-> gate_reasons fills = []).
  { rewrite Nat.eqb_eq. apply length_zero_iff_nil. }
  split; [|split; [|split; [|repeat split]]].
  - rewrite P, gate_reasons_nil, !lt_false, gt_false. tauto.
  - exists (JS.lt (winRate fills) RISK_GATES.MIN_WINRATE),
      (JS.lt (totalPnl (loop fills)) RISK_GATES.MIN_TOTAL_PNL),
      (JS.gt (maxDrawdown (loop fills)) RISK_GATES.MAX_DRAWDOWN).
    rewrite !lt_true, gt_true. repeat split; auto.
  - symmetry. exact P.
Qed.

Lemma analyzer_verdict_witness :
  passes (analyzeFills history_12) = true
  /\ reasons (analyzeFills history_12) = []
  /\ win_rate (analyzeFills history_12) == 0.583.
Proof.
  assert (L : (RISK_GATES.MIN_TRADES <= length history_12)%nat)
    by (unfold RISK_GATES.MIN_TRADES, history_12, fills_of; simpl; lia).
  destruct (analyzer_verdict history_12 L) as (V & _ & N & _ & W & _).
  assert (P : passes (analyzeFills history_12) = true).
  { apply V. vm_compute. repeat split; discriminate. }
  split; [exact P|]. split; [apply N; exact P|].
  rewrite W. vm_compute. reflexivity.
Defined.

(** The verdict does not look at the rounded numbers: a total of -500.004
    is returned as -500, which would meet the threshold, and the history
    fails on its PnL all the same. *)
Example verdict_uses_unrounded_total :
  total_pnl (analyzeFills history_rounding) == -500
  /\ RISK_GATES.MIN_TOTAL_PNL <= total_pnl (analyzeFills history_rounding)
  /\ passes (analyzeFills history_rounding) = false
  /\ In (PnlBelow (-500.004)) (reasons (analyzeFills history_rounding)).
Proof.
  vm_compute. repeat split; try discriminate. right. left. reflexivity.
Qed.

(** C5, as the code has it.  A history of fewer than [MIN_TRADES] fills,
    the empty one included, is failed at once: the result has [passes]
    false, the one reason that cites the shortfall, the size of the sample,
    and 0 for total PnL, win rate and maximum drawdown, which are not
    computed. *)
Theorem short_history_fails (fills : list Fill) :
  (length fills < RISK_GATES.MIN_TRADES)%nat ->
  analyzeFills fills
  = {| total_pnl := 0; win_rate := 0; max_drawdown := 0;
       total_trades := length fills; passes := false;
       reasons := [InsufficientTrades (length fills) RISK_GATES.MIN_TRADES] |}.
Proof.
  intro H. unfold analyzeFills.
  apply Nat.ltb_lt in H. rewrite H. reflexivity.
Qed.

Lemma short_history_fails_witness :
  analyzeFills (fills_of [100])
  = {| total_pnl := 0; win_rate := 0; max_drawdown := 0;
       total_trades := 1; passes := false;
       reasons := [InsufficientTrades 1 10] |}.
Proof.
  apply (short_history_fails (fills_of [100])).
  unfold RISK_GATES.MIN_TRADES. simpl. lia.
Defined.

(** A single fill of 100: the analyzer returns a total PnL of 0, where the
    sample has 100. *)
Lemma short_history_metrics_not_from_sample :
  ~ short_history_metrics_from_sample (fills_of [100]).
Proof.
  intro H.
  destruct H as (_ & _ & T & _).
  - unfold RISK_GATES.MIN_TRADES. simpl. lia.
  - vm_compute in T. discriminate T.
Qed.

(** *** The maximum drawdown *)

Section MaxDrawdown.

Lemma loop_body_running (s : Acc) (fill : Fill) :
  runningPnl (loop_body s fill) = runningPnl s + closedPnl fill.
Proof. reflexivity. Qed.

Lemma loop_body_nonneg (s : Acc) (fill : Fill) :
  0 <= maxDrawdown s -> 0 <= maxDrawdown (loop_body s fill).
Proof.
  intro H. unfold loop_body. cbn [maxDrawdown].
  match goal with |- context [JS.gt ?d (maxDrawdown s)] =>
    destruct (JS.gt d (maxDrawdown s)) eqn:E; [apply gt_true in E; lra|exact H]
  end.
Qed.

Lemma loop_body_le_1 (s : Acc) (fill : Fill) :
  maxDrawdown s <= 1 -> 0 <= runningPnl s + closedPnl fill ->
  maxDrawdown (loop_body s fill) <= 1.
Proof.
  intros H R. unfold loop_body. cbn [maxDrawdown].
  set (r := runningPnl s + closedPnl fill) in *.
  set (p := if JS.gt r (peak s) then r else peak s).
  assert (P : r <= p).
  { subst p. destruct (JS.gt r (peak s)) eqn:E; [lra|].
    apply gt_false in E. exact E. }
  assert (D : (if JS.gt p 0 then (p - r) / p else 0) <= 1).
  { destruct (JS.gt p 0) eqn:E; [|lra].
    apply gt_true in E. apply Qle_shift_div_r; lra. }
  match goal with |- (if ?c then _ else _) <= 1 => destruct c end;
    assumption.
Qed.

Lemma loop_body_flat (s : Acc) (fill : Fill) :
  maxDrawdown s = 0 -> peak s = 0 -> runningPnl s <= 0 ->
  closedPnl fill <= 0 ->
  maxDrawdown (loop_body s fill) = 0 /\ peak (loop_body s fill) = 0
  /\ runningPnl (loop_body s fill) <= 0.
Proof.
  intros M P R C. unfold loop_body. cbn [maxDrawdown peak runningPnl].
  rewrite M, P.
  assert (E1 : JS.gt (runningPnl s + closedPnl fill) 0 = false)
    by (apply gt_false; lra).
  rewrite E1.
  assert (E2 : JS.gt 0 0 = false) by reflexivity.
  rewrite E2. repeat split; try reflexivity. lra.
Qed.

Lemma fold_nonneg (fills : list Fill) : forall s,
  0 <= maxDrawdown s -> 0 <= maxDrawdown (fold_left loop_body fills s).
Proof.
  induction fills as [|fill rest IH]; intros s H; [exact H|].
  cbn [fold_left]. apply IH, loop_body_nonneg, H.
Qed.

Lemma fold_le_1 (fills : list Fill) : forall s,
  maxDrawdown s <= 1 ->
  Forall (fun r => 0 <= r) (running_from (runningPnl s) fills) ->
  maxDrawdown (fold_left loop_body fills s) <= 1.
Proof.
  induction fills as [|fill rest IH]; intros s H F; [exact H|].
  cbn [fold_left]. cbn [running_from] in F. inversion F; subst.
  apply IH.
  - apply loop_body_le_1; assumption.
  - rewrite loop_body_running. assumption.
Qed.

Lemma fold_flat (fills : list Fill) : forall s,
  maxDrawdown s = 0 -> peak s = 0 -> runningPnl s <= 0 ->
  Forall (fun fill => closedPnl fill <= 0) fills ->
  maxDrawdown (fold_left loop_body fills s) = 0.
Proof.
  induction fills as [|fill rest IH]; intros s M P R F; [exact M|].
  cbn [fold_left]. inversion F; subst.
  destruct (loop_body_flat s fill M P R) as (M' & P' & R'); [assumption|].
  apply IH; assumption.
Qed.

(** What [analyzePnL] returns as [max_drawdown]: 0 for a short history,
    the rounding of the loop's value otherwise. *)
Lemma returned_max_drawdown (fills : list Fill) :
  max_drawdown (analyzeFills fills) = 0
  \/ max_drawdown (analyzeFills fills)
     = JS.Math_round (maxDrawdown (loop fills) * 1000) / 1000.
Proof.
  unfold analyzeFills.
  destruct (length fills <? RISK_GATES.MIN_TRADES)%nat; [left|right];
    reflexivity.
Qed.

Lemma rounded_in_unit_interval (x : Q) :
  0 <= x -> x <= 1 ->
  0 <= JS.Math_round (x * 1000) / 1000
  /\ JS.Math_round (x * 1000) / 1000 <= 1.
Proof.
  intros L U.
  destruct (Math_round_between 0 1000 (x * 1000)) as [A B].
  - change (inject_Z 0) with 0. lra.
  - change (inject_Z 1000) with 1000. lra.
  - change (inject_Z 0) with 0 in A. change (inject_Z 1000) with 1000 in B.
    split.
    + apply Qle_shift_div_l; lra.
    + apply Qle_shift_div_r; lra.
Qed.

End MaxDrawdown.

(** C6, as the code has it.  The maximum drawdown is never negative; it is
    at most 1 when no point of the running PnL is below zero; and it is 0
    when no fill has a positive PnL, the peak staying at its initial 0.  The
    same holds of the rounded value that the analyzer returns. *)
Theorem max_drawdown_bounds (fills : list Fill) :
  0 <= maxDrawdown (loop fills)
  /\ 0 <= max_drawdown (analyzeFills fills)
  /\ (Forall (fun r => 0 <= r) (running_points fills) ->
      maxDrawdown (loop fills) <= 1
      /\ max_drawdown (analyzeFills fills) <= 1)
  /\ (Forall (fun fill => closedPnl fill <= 0) fills ->
      maxDrawdown (loop fills) = 0
      /\ max_drawdown (analyzeFills fills) == 0).
Proof.
  assert (N : 0 <= maxDrawdown (loop fills))
    by (apply fold_nonneg; cbn; lra).
  split; [exact N|]. split; [|split].
  - destruct (returned_max_drawdown fills) as [E|E]; rewrite E; [lra|].
    apply Qle_shift_div_l; [lra|].
    pose proof (Math_round_nonneg (maxDrawdown (loop fills) * 1000)) as A.
    lra.
  - intro F.
    assert (U : maxDrawdown (loop fills) <= 1)
      by (apply fold_le_1; [cbn; lra | exact F]).
    split; [exact U|].
    destruct (returned_max_drawdown fills) as [E|E]; rewrite E; [lra|].
    apply rounded_in_unit_interval; assumption.
  - intro F.
    assert (Z : maxDrawdown (loop fills) = 0)
      by (apply fold_flat; [reflexivity | reflexivity | cbn; lra | exact F]).
    split; [exact Z|].
    destruct (returned_max_drawdown fills) as [E|E]; rewrite E;
      [reflexivity|].
    rewrite Z. reflexivity.
Qed.

Lemma max_drawdown_bounds_witness :
  (maxDrawdown (loop history_shallow) <= 1
   /\ max_drawdown (analyzeFills history_shallow) <= 1)
  /\ (maxDrawdown (loop history_losses) = 0
      /\ max_drawdown (analyzeFills history_losses) == 0).
Proof.
  split.
  - apply (max_drawdown_bounds history_shallow).
    vm_compute. repeat constructor; discriminate.
  - apply (max_drawdown_bounds history_losses).
    vm_compute. repeat constructor; discriminate.
Defined.

(** A profit of 10 followed by a loss of 30: the running PnL has a positive
    point, and the drawdown from the peak of 10 down to -20 is 3, which the
    analyzer returns. *)
Lemma drawdown_exceeds_one :
  Exists (fun r => 0 < r) (running_points history_deep)
  /\ maxDrawdown (loop history_deep) == 3
  /\ max_drawdown (analyzeFills history_deep) == 3
  /\ ~ drawdown_within_unit_interval history_deep.
Proof.
  assert (E : Exists (fun r => 0 < r) (running_points history_deep))
    by (left; vm_compute; reflexivity).
  split; [exact E|]. split; [vm_compute; reflexivity|].
  split; [vm_compute; reflexivity|].
  intros [H _]. destruct (H E) as [_ U].
  vm_compute in U. apply U. reflexivity.
Qed.

(* ------------------------------------------------------------------ *)
(** ** Running a handler *)

(** Case analysis on a run: on every answer of the outside and on every
    branch of the handler. *)
Ltac run_cases H :=
  repeat (cbn in H;
          match type of H with
          | context [throw_if_none ?x] => destruct x eqn:?
          | context [match ?x with _ => _ end] =>
              lazymatch x with
              | context [run] => fail
              | context [match _ with _ => _ end] => fail
              | _ => destruct x eqn:?
              end
          end);
  cbn in H.

Ltac unfold_handlers H :=
  unfold post_evaluate, post_trade, post_cancel, trade_gate, trade_execute,
    analyzePnL, getBalance, query, exec, exec_or_throw, await, call, parse
    in H.

(* ------------------------------------------------------------------ *)
(** ** The store *)

Section Store.

Lemma find_filter_none {A : Type} (p q : A -> bool) (l : list A) :
  (forall x, p x = true -> q x = false) -> find p (filter q l) = None.
Proof.
  intro H. induction l as [|x l IH]; [reflexivity|].
  cbn. destruct (q x) eqn:Q; [|exact IH].
  cbn. destruct (p x) eqn:P; [|exact IH].
  apply H in P. congruence.
Qed.

Lemma find_app {A : Type} (p : A -> bool) (l1 l2 : list A) :
  find p (l1 ++ l2)
  = match find p l1 with Some x => Some x | None => find p l2 end.
Proof.
  induction l1 as [|x l1 IH]; [reflexivity|].
  cbn. destruct (p x); [reflexivity|exact IH].
Qed.

Variables (agent : Agent) (addr : string) (db db' : Db).
Hypothesis Haddr : hl_address agent = Some addr.
Hypothesis Hsave : saveAgent agent db = Some db'.

Lemma saveAgent_agents :
  agents db'
  = filter (fun r => negb (conflicts (id agent) addr r)) (agents db)
    ++ [ {| row_id := id agent;
            row_hyperliquid_address := addr;
            row_funded_wallet_address := funded_wallet_address agent;
            row_current_pnl := current_pnl agent;
            row_firm_profit := firm_profit agent;
            row_agent_profit := agent_profit agent;
            row_trade_count := trade_count agent;
            row_status := status agent |} ].
Proof.
  unfold saveAgent in Hsave. rewrite Haddr in Hsave.
  inversion Hsave. reflexivity.
Qed.

Lemma saveAgent_wallets : funded_wallets db' = funded_wallets db.
Proof.
  unfold saveAgent in Hsave. rewrite Haddr in Hsave.
  inversion Hsave. reflexivity.
Qed.

Lemma getAgent_saveAgent : getAgent (id agent) db' = Some (reloaded agent addr).
Proof.
  unfold getAgent. rewrite saveAgent_agents, find_app, find_filter_none.
  - cbn. rewrite String.eqb_refl. reflexivity.
  - intros r E. unfold conflicts. rewrite E. reflexivity.
Qed.

Lemma getAgentByHyperliquidAddress_saveAgent :
  getAgentByHyperliquidAddress addr db' = Some (reloaded agent addr).
Proof.
  unfold getAgentByHyperliquidAddress.
  rewrite saveAgent_agents, find_app, find_filter_none.
  - cbn. rewrite String.eqb_refl. reflexivity.
  - intros r E. unfold conflicts. rewrite E, orb_true_r. reflexivity.
Qed.

Lemma agents_for_saveAgent : length (agents_for addr db') = 1%nat.
Proof.
  unfold agents_for. rewrite saveAgent_agents, filter_app, length_app.
  cbn. rewrite String.eqb_refl. cbn.
  replace (filter _ (filter _ (agents db))) with (@nil AgentRow);
    [reflexivity|].
  symmetry. induction (agents db) as [|r l IH]; [reflexivity|].
  cbn. unfold conflicts at 1.
  destruct (String.eqb (row_hyperliquid_address r) addr) eqn:E.
  - rewrite orb_true_r. cbn. exact IH.
  - rewrite orb_false_r. destruct (String.eqb (row_id r) (id agent)); cbn;
      [exact IH|]. rewrite E. exact IH.
Qed.

End Store.

Lemma saveAgent_reloaded (r : AgentRow) (db : Db) :
  saveAgent (row_as_Agent r) db = None.
Proof. reflexivity. Qed.

Lemma getAgent_is_row (id0 : string) (db : Db) (agent : Agent) :
  getAgent id0 db = Some agent ->
  exists r, In r (agents db) /\ row_id r = id0 /\ agent = row_as_Agent r.
Proof.
  unfold getAgent. intro H.
  destruct (find _ (agents db)) as [r|] eqn:F; [|discriminate].
  apply find_some in F. destruct F as [I E]. apply String.eqb_eq in E.
  exists r. inversion H. auto.
Qed.

(** C10.  An agent written with [saveAgent] and read back with [getAgent]
    keeps its [id], its [hl_address] (under the name [hyperliquid_address]),
    [funded_wallet_address], [current_pnl], [firm_profit], [agent_profit],
    [trade_count] and [status], and nothing else: the object read has no
    [initial_capital] and no [created_at].  So no agent obtained from the
    store has a drawdown baseline: whatever the balance, the drawdown that
    the trade gate computes for it is 0. *)
Theorem agent_round_trip (agent : Agent) (addr : string) (db : Db) :
  hl_address agent = Some addr ->
  (exists db' agent',
      saveAgent agent db = Some db'
      /\ getAgent (id agent) db' = Some agent'
      /\ id agent' = id agent
      /\ hyperliquid_address agent' = Some addr
      /\ funded_wallet_address agent' = funded_wallet_address agent
      /\ current_pnl agent' = current_pnl agent
      /\ firm_profit agent' = firm_profit agent
      /\ agent_profit agent' = agent_profit agent
      /\ trade_count agent' = trade_count agent
      /\ status agent' = status agent
      /\ hl_address agent' = None
      /\ initial_capital agent' = None
      /\ created_at agent' = None)
  /\ (forall (store : Db) (id0 : string) (stored : Agent),
         getAgent id0 store = Some stored ->
         initial_capital stored = None
         /\ created_at stored = None
         /\ forall bal, drawdown_of stored bal = 0).
Proof.
  intro H. split.
  - destruct (saveAgent agent db) as [db'|] eqn:S.
    + exists db', (reloaded agent addr).
      split; [reflexivity|].
      split; [exact (getAgent_saveAgent agent addr db db' H S)|].
      cbn. repeat split; reflexivity.
    + unfold saveAgent in S. rewrite H in S. discriminate S.
  - intros store id0 stored G.
    apply getAgent_is_row in G. destruct G as (r & _ & _ & ->).
    repeat split; reflexivity.
Qed.

Lemma agent_round_trip_witness :
  exists db' agent',
    saveAgent (new_agent uuid_1 addr_alice w1_address 1000 "t0") db_one_wallet
    = Some db'
    /\ getAgent uuid_1 db' = Some agent'
    /\ hyperliquid_address agent' = Some addr_alice
    /\ initial_capital agent' = None
    /\ created_at agent' = None.
Proof.
  destruct (agent_round_trip
              (new_agent uuid_1 addr_alice w1_address 1000 "t0")
              addr_alice db_one_wallet eq_refl)
    as [(db' & agent' & S & G & _ & A & _ & _ & _ & _ & _ & _ & _ & I & C) _].
  exists db', agent'. auto.
Defined.

(* ------------------------------------------------------------------ *)
(** ** Onboarding *)

Section Onboarding.

Variables (bypassPnl : bool) (input : EvaluateInput.t).
Let addr := EvaluateInput.hyperliquid_address input.

(** Step 1 of [/evaluate]: an agent exists for the address. *)
Lemma evaluate_registered (env : Env) (db : Db) (existing : Agent) :
  getAgentByHyperliquidAddress addr db = Some existing ->
  run env (post_evaluate bypassPnl (Some input)) db
  = (Sent (already_registered existing), db, []).
Proof.
  intro H. unfold post_evaluate, query, parse. cbn.
  fold addr. rewrite H. reflexivity.
Qed.

(** What an approval leaves in the store. *)
Lemma evaluate_approved (env : Env) (db db' : Db) (tr : list Event)
    (b : bool) (agent : Agent) (m : Metrics) (msg : string) :
  run env (post_evaluate bypassPnl (Some input)) db
  = (Sent (approved b agent m msg), db', tr) ->
  getAgentByHyperliquidAddress addr db = None
  /\ hl_address agent = Some addr
  /\ initial_capital agent <> None
  /\ status agent = active
  /\ exists wallet,
       getAvailableWallet db = Some wallet
       /\ funded_wallet_address agent = address wallet
       /\ saveAgent agent (assignWallet (address wallet) (id agent) db)
          = Some db'.
Proof.
  intro H. unfold_handlers H. run_cases H; try discriminate H.
  all: inversion H; subst; cbn.
  all: repeat split; try assumption; try discriminate.
  all: eexists; repeat split; try eassumption; reflexivity.
Qed.

End Onboarding.

Lemma find_some_filter {A : Type} (p : A -> bool) (l : list A) (x : A) :
  find p l = Some x -> (1 <= length (filter p l))%nat.
Proof.
  induction l as [|y l IH]; [discriminate|].
  cbn. destruct (p y); cbn; [lia|exact IH].
Qed.

Lemma registered_has_row (addr : string) (db : Db) (existing : Agent) :
  getAgentByHyperliquidAddress addr db = Some existing ->
  (1 <= length (agents_for addr db))%nat.
Proof.
  unfold getAgentByHyperliquidAddress, agents_for. intro H.
  destruct (find _ (agents db)) as [r|] eqn:F; [|discriminate].
  eapply find_some_filter, F.
Qed.

(** A call of [/evaluate] that is not an approval leaves the store as it
    was. *)
Lemma evaluate_writes_on_approval_only (bypassPnl : bool)
    (body : option EvaluateInput.t) (env : Env) (db db' : Db)
    (f : Final Empty_set) (tr : list Event) :
  run env (post_evaluate bypassPnl body) db = (f, db', tr) ->
  db' = db \/ exists b agent m msg, f = Sent (approved b agent m msg).
Proof.
  intro H. destruct body as [input|];
    [|cbn in H; inversion H; left; reflexivity].
  unfold_handlers H. run_cases H; try discriminate H.
  all: inversion H; subst.
  all: try (left; reflexivity).
  all: right; do 4 eexists; reflexivity.
Qed.

(** C3.  Onboarding is idempotent per address.  Whenever an agent exists
    for the address, [/evaluate] answers [already_registered] with that
    agent as the store has it, leaves the store unchanged and makes no
    outside call: no signature check, no analysis of fills, no balance read.
    A second call after a call that returned an agent returns
    [already_registered] with the same [id], and the store holds exactly one
    agent for the address; whatever the outcome of two calls in a row, a
    store with at most one agent for the address still has at most one. *)
Theorem onboarding_idempotent (bypassPnl : bool) (input : EvaluateInput.t)
    (env1 env2 : Env) (db : Db) :
  let addr := EvaluateInput.hyperliquid_address input in
  (length (agents_for addr db) <= 1)%nat ->
  (forall existing,
      getAgentByHyperliquidAddress addr db = Some existing ->
      run env1 (post_evaluate bypassPnl (Some input)) db
      = (Sent (already_registered existing), db, [])
      /\ length (agents_for addr db) = 1%nat)
  /\ (forall r1 db1 tr1 agent,
         run env1 (post_evaluate bypassPnl (Some input)) db
         = (Sent r1, db1, tr1) ->
         (r1 = already_registered agent
          \/ exists b m msg, r1 = approved b agent m msg) ->
         exists again,
           run env2 (post_evaluate bypassPnl (Some input)) db1
           = (Sent (already_registered again), db1, [])
           /\ id again = id agent
           /\ length (agents_for addr db1) = 1%nat)
  /\ (forall f1 db1 tr1 f2 db2 tr2,
         run env1 (post_evaluate bypassPnl (Some input)) db = (f1, db1, tr1) ->
         run env2 (post_evaluate bypassPnl (Some input)) db1 = (f2, db2, tr2) ->
         (length (agents_for addr db2) <= 1)%nat).
Proof.
  intros addr U.
  assert (Reg : forall store existing,
             (length (agents_for addr store) <= 1)%nat ->
             getAgentByHyperliquidAddress addr store = Some existing ->
             length (agents_for addr store) = 1%nat).
  { intros store existing L G. apply registered_has_row in G. lia. }
  assert (Keep : forall env store store' f tr,
             (length (agents_for addr store) <= 1)%nat ->
             run env (post_evaluate bypassPnl (Some input)) store
             = (f, store', tr) ->
             (length (agents_for addr store') <= 1)%nat).
  { intros env store store' f tr L R.
    destruct (evaluate_writes_on_approval_only _ _ _ _ _ _ _ R)
      as [->|(b & agent & m & msg & ->)]; [exact L|].
    apply evaluate_approved in R.
    destruct R as (_ & A & _ & _ & w & _ & _ & S).
    rewrite (agents_for_saveAgent agent addr _ _ A S). lia. }
  split; [|split].
  - intros existing G. split; [|eapply Reg; eassumption].
    apply evaluate_registered. exact G.
  - intros r1 db1 tr1 agent R [->|(b & m & msg & ->)].
    + destruct (getAgentByHyperliquidAddress addr db) as [existing|] eqn:G.
      * rewrite (evaluate_registered bypassPnl input env1 db existing G) in R.
        inversion R; subst. exists agent.
        split; [apply evaluate_registered; exact G|].
        split; [reflexivity|]. eapply Reg; eassumption.
      * unfold_handlers R. cbn in R. fold addr in R. rewrite G in R.
        run_cases R; discriminate R.
    + apply evaluate_approved in R.
      destruct R as (_ & A & _ & _ & w & _ & _ & S).
      exists (reloaded agent addr).
      split; [|split].
      * apply evaluate_registered.
        exact (getAgentByHyperliquidAddress_saveAgent agent addr _ _ A S).
      * reflexivity.
      * exact (agents_for_saveAgent agent addr _ _ A S).
  - intros f1 db1 tr1 f2 db2 tr2 R1 R2.
    eapply Keep; [|exact R2]. eapply Keep; [exact U|exact R1].
Qed.

Lemma onboarding_idempotent_witness :
  let first := run (env_of (world uuid_1 history_12 1000))
                 (post_evaluate false (Some alice)) db_one_wallet in
  exists again,
    run (env_of (world uuid_2 history_12 900))
      (post_evaluate false (Some alice)) (store_after first)
    = (Sent (already_registered again), store_after first, [])
    /\ id again = uuid_1
    /\ length (agents_for addr_alice (store_after first)) = 1%nat.
Proof.
  intro first. subst first.
  destruct (run (env_of (world uuid_1 history_12 1000))
              (post_evaluate false (Some alice)) db_one_wallet)
    as [[f1 db1] tr1] eqn:R.
  assert (A : exists b m msg agent,
             f1 = Sent (approved b agent m msg) /\ id agent = uuid_1).
  { vm_compute in R. inversion R. do 4 eexists. split; reflexivity. }
  destruct A as (b & m & msg & agent & -> & I).
  assert (L : (length (agents_for (EvaluateInput.hyperliquid_address alice)
                         db_one_wallet) <= 1)%nat) by (cbn; lia).
  destruct (onboarding_idempotent false alice
              (env_of (world uuid_1 history_12 1000))
              (env_of (world uuid_2 history_12 900)) db_one_wallet L)
    as (_ & T & _).
  destruct (T _ _ _ agent R) as (again & R2 & I2 & N).
  - right. do 3 eexists. reflexivity.
  - exists again. cbn [store_after fst snd].
    split; [exact R2|]. split; [congruence|exact N].
Defined.

(** C8.  A call of [/evaluate] that ends in [rejected] has the bypass flag
    off and an analysis that failed, attaches the metrics of that analysis
    and leaves the store as it was: no agent row is written and no wallet is
    assigned.  A call that ends in [no_funded_wallets] found no free wallet
    and leaves the store as it was too, so the address still has no agent
    and a later call is not answered [already_registered]. *)
Theorem onboarding_failure_leaves_store (bypassPnl : bool)
    (input : EvaluateInput.t) (env : Env) (db db' : Db) (tr : list Event) :
  let addr := EvaluateInput.hyperliquid_address input in
  (forall m,
      run env (post_evaluate bypassPnl (Some input)) db
      = (Sent (rejected m), db', tr) ->
      db' = db
      /\ bypassPnl = false
      /\ passes m = false
      /\ exists fills,
           answer env _ (userFills addr) = Some fills /\ m = analyzeFills fills)
  /\ (run env (post_evaluate bypassPnl (Some input)) db
      = (Sent no_funded_wallets, db', tr) ->
      db' = db
      /\ getAvailableWallet db = None
      /\ getAgentByHyperliquidAddress addr db' = None).
Proof.
  intro addr. split.
  - intros m H. unfold_handlers H. run_cases H; try discriminate H.
    inversion H; subst.
    match goal with
    | E : negb (passes _) && negb bypassPnl = true |- _ =>
        apply andb_true_iff in E; destruct E as [P B];
        apply negb_true_iff in P, B
    end.
    repeat split; try assumption.
    eexists. split; [eassumption|reflexivity].
  - intro H. unfold_handlers H. run_cases H; try discriminate H.
    inversion H; subst. repeat split; assumption.
Qed.

Lemma onboarding_failure_leaves_store_witness :
  (exists m tr,
      run (env_of (world uuid_1 [] 1000))
        (post_evaluate false (Some alice)) db_one_wallet
      = (Sent (rejected m), db_one_wallet, tr)
      /\ passes m = false)
  /\ (exists tr,
         run (env_of (world uuid_1 history_12 1000))
           (post_evaluate false (Some alice)) db_empty
         = (Sent no_funded_wallets, db_empty, tr)
         /\ getAgentByHyperliquidAddress addr_alice db_empty = None).
Proof.
  split.
  - destruct (run (env_of (world uuid_1 [] 1000))
                (post_evaluate false (Some alice)) db_one_wallet)
      as [[f1 db1] tr1] eqn:R.
    assert (A : exists m, f1 = Sent (rejected m)).
    { vm_compute in R. inversion R. eexists. reflexivity. }
    destruct A as (m & ->).
    destruct (onboarding_failure_leaves_store false alice
                (env_of (world uuid_1 [] 1000)) db_one_wallet db1 tr1)
      as [Rej _].
    destruct (Rej m R) as (-> & _ & P & _).
    exists m, tr1. split; [reflexivity|exact P].
  - destruct (run (env_of (world uuid_1 history_12 1000))
                (post_evaluate false (Some alice)) db_empty)
      as [[f1 db1] tr1] eqn:R.
    assert (A : f1 = Sent no_funded_wallets).
    { vm_compute in R. inversion R. reflexivity. }
    subst f1.
    destruct (onboarding_failure_leaves_store false alice
                (env_of (world uuid_1 history_12 1000)) db_empty db1 tr1)
      as [_ Cap].
    destruct (Cap R) as (-> & _ & G).
    exists tr1. split; [reflexivity|exact G].
Defined.

(* ------------------------------------------------------------------ *)
(** ** The trade gate *)

Arguments getAgent : simpl never.
Arguments getWalletForAgent : simpl never.
Arguments getAvailableWallet : simpl never.
Arguments ordersToPlace : simpl never.
Arguments applyClosedPnl : simpl never.
Arguments truthy : simpl never.
Arguments findIndex : simpl never.

(** [getBalance] reads twice and returns, whatever the reads answer. *)
Lemma getBalance_returns (env : Env) (address : string) (db : Db) :
  exists bal,
    run env (getBalance address) db
    = (Returned bal, db,
       [awaited (clearinghouseState address);
        awaited (spotClearinghouseState address)]).
Proof.
  unfold getBalance, await. cbn.
  destruct (answer env _ (clearinghouseState address)); cbn;
    destruct (answer env _ (spotClearinghouseState address)) as [spot|]; cbn;
    try destruct (find _ spot); cbn; eexists; reflexivity.
Qed.

(** With both reads failing, the balance that [getBalance] returns is 0. *)
Lemma getBalance_failed_reads (env : Env) (address : string) (db : Db) :
  answer env _ (clearinghouseState address) = None ->
  answer env _ (spotClearinghouseState address) = None ->
  exists bal,
    run env (getBalance address) db
    = (Returned bal, db,
       [awaited (clearinghouseState address);
        awaited (spotClearinghouseState address)])
    /\ accountValue bal == 0.
Proof.
  intros C S. unfold getBalance, await. cbn. rewrite C. cbn. rewrite S. cbn.
  eexists. split; reflexivity.
Qed.

(** The drawdown of an agent that has its baseline. *)
Lemma drawdown_of_baseline (agent : Agent) (bal : Balance) (ic : Q) :
  initial_capital agent = Some ic -> 0 < ic ->
  drawdown_of agent bal = (ic - accountValue bal) / ic.
Proof.
  intros I P. unfold drawdown_of. rewrite I.
  apply gt_true in P. rewrite P. reflexivity.
Qed.


(** What the gate does for an agent of the store that is active, under its
    quota and has a wallet: two balance reads, then it falls through. *)
Lemma trade_gate_passes (env : Env) (input : TradeInput.t) (db : Db)
    (agent : Agent) (wallet : FundedWallet) :
  getAgent (TradeInput.agent_id input) db = Some agent ->
  status agent = active ->
  (trade_count agent < RISK_GATES.MAX_DAILY_TRADES)%Z ->
  getWalletForAgent (id agent) db = Some wallet ->
  run env (trade_gate input) db
  = (Returned (agent, wallet), db,
     [awaited (clearinghouseState (address wallet));
      awaited (spotClearinghouseState (address wallet))]).
Proof.
  intros G A Q W.
  destruct (getAgent_is_row _ _ _ G) as (r & _ & _ & ->).
  cbn [status trade_count id row_as_Agent] in A, Q, W.
  unfold trade_gate, query. cbn. rewrite G. cbn. rewrite A. cbn.
  apply Z.leb_gt in Q. rewrite Q. cbn. rewrite W. cbn.
  unfold getBalance, await. cbn.
  destruct (answer env _ (clearinghouseState (address wallet))); cbn;
    destruct (answer env _ (spotClearinghouseState (address wallet)))
      as [spot|]; cbn;
    try destruct (find _ spot); cbn; reflexivity.
Qed.

(** After the profit split the object still has no [hl_address], and
    [saveAgent] throws. *)
Lemma saveAgent_after_split (r : AgentRow) (p : Q) (db : Db) :
  saveAgent (fst (applyClosedPnl (incr_trade_count (row_as_Agent r)) p)) db
  = None.
Proof.
  unfold applyClosedPnl. destruct (JS.gt p 0); [reflexivity|].
  destruct (JS.lt p 0); reflexivity.
Qed.

Ltac saveAgent_throws :=
  match goal with
  | E : saveAgent (fst (applyClosedPnl _ _)) _ = Some _ |- _ =>
      rewrite saveAgent_after_split in E; discriminate E
  end.

(** [/trade] never writes to the store and never answers
    [drawdown_exceeded]. *)
Lemma trade_never_revokes (env : Env) (body : option TradeInput.t)
    (db db' : Db) (f : Final Empty_set) (tr : list Event) :
  run env (post_trade body) db = (f, db', tr) ->
  db' = db /\ forall d, f <> Sent (drawdown_exceeded d).
Proof.
  intro H. destruct body as [input|];
    [|cbn in H; inversion H; split; [reflexivity|discriminate]].
  unfold post_trade, trade_gate, parse, query in H. cbn in H.
  destruct (getAgent (TradeInput.agent_id input) db) as [agent|] eqn:G;
    [|cbn in H; inversion H; split; [reflexivity|discriminate]].
  destruct (getAgent_is_row _ _ _ G) as (r & _ & _ & ->).
  unfold_handlers H. run_cases H; try discriminate H; try saveAgent_throws.
  all: inversion H; subst; split; [reflexivity|discriminate].
Qed.

Ltac in_trace :=
  cbn [In]; repeat (first [left; reflexivity | right]).



(** For an agent object that has its baseline, a balance of 0, which is
    what [getBalance] returns when its reads fail, is a drawdown of 1: the
    gate lets the trade through only because the agent of the store has
    none. *)
Remark failed_reads_with_baseline (agent : Agent) (bal : Balance) (ic : Q) :
  initial_capital agent = Some ic -> 0 < ic -> accountValue bal == 0 ->
  drawdown_of agent bal == 1
  /\ JS.ge (drawdown_of agent bal) RISK_GATES.DRAWDOWN_KILL = true.
Proof.
  intros I P Z.
  assert (E : drawdown_of agent bal == 1).
  { rewrite (drawdown_of_baseline agent bal ic I P), Z. field. lra. }
  split; [exact E|]. apply ge_true. rewrite E. discriminate.
Qed.

(* ------------------------------------------------------------------ *)
(** ** The kill switch *)

(** C1, the code at an input where the claim fails.  [alice] is onboarded
    on a wallet worth 1000, so the agent created has a baseline of 1000.
    At her next trade the wallet is worth 800, a drawdown of 0.2 where
    [DRAWDOWN_KILL] is 0.1.  The agent that [/trade] gets from the store has
    no baseline: the gate computes a drawdown of 0 and lets the trade
    through, the order is placed when the exchange accepts it, the agent is
    still active in the store and the answer is not a 403. *)
Theorem kill_switch_not_triggered :
  let onboard := run (env_of (world uuid_1 history_12 1000))
                   (post_evaluate false (Some alice)) db_one_wallet in
  let market := with_account (world uuid_any [] 800) in
  let trade := run (env_of market)
                 (post_trade (Some (buy_btc uuid_1))) db_alice in
  (exists m msg tr,
      onboard
      = (Sent (approved false
                 (new_agent uuid_1 addr_alice w1_address (1000 + 0)
                    "2025-01-01T00:00:00.000Z") m msg), db_alice, tr))
  /\ RISK_GATES.DRAWDOWN_KILL <= (1000 - 800) / 1000
  /\ getAgent uuid_1 db_alice = Some alice_stored
  /\ initial_capital alice_stored = None
  /\ run (env_of market) (trade_gate (buy_btc uuid_1)) db_alice
     = (Returned (alice_stored, wallet_1), db_alice,
        [awaited (clearinghouseState w1_address);
         awaited (spotClearinghouseState w1_address)])
  /\ trade
     = (Sent internal_server_error, db_alice,
        [awaited (clearinghouseState w1_address);
         awaited (spotClearinghouseState w1_address);
         called (privateKeyToAccount None);
         awaited meta;
         awaited (order "account"%string (ordersToPlace 0 (buy_btc uuid_1)) na);
         awaited (userFills w1_address)])
  /\ status alice_stored = active
  /\ http_status internal_server_error <> 403%nat.
Proof.
  cbv zeta. repeat apply conj.
  - do 3 eexists. vm_compute. reflexivity.
  - vm_compute. discriminate.
  - reflexivity.
  - reflexivity.
  - vm_compute. reflexivity.
  - vm_compute. reflexivity.
  - reflexivity.
  - discriminate.
Qed.

(* ------------------------------------------------------------------ *)
(** ** The profit ledger *)



(* ------------------------------------------------------------------ *)
(** ** Exclusive assignment of wallets *)

Section Exclusive.

(** The key of a row that a filter keeps is the key of a row. *)
Lemma In_map_filter {Row Key : Type} (key : Row -> Key) (keep : Row -> bool)
    (rows : list Row) (k : Key) :
  In k (map key (filter keep rows)) ->
  exists row, In row rows /\ keep row = true /\ key row = k.
Proof.
  intro H. apply in_map_iff in H. destruct H as (row & E & I).
  apply filter_In in I. destruct I as [I K]. exists row. auto.
Qed.

(** Rows with distinct keys keep distinct keys when some are deleted. *)
Lemma NoDup_map_filter {Row Key : Type} (key : Row -> Key)
    (keep : Row -> bool) :
  forall rows : list Row,
    NoDup (map key rows) -> NoDup (map key (filter keep rows)).
Proof.
  intros rows. induction rows as [|row rows IH]; intro H; [constructor|].
  cbn in *. inversion H as [|? ? N D]; subst.
  destruct (keep row); [|apply IH; exact D].
  cbn. constructor; [|apply IH; exact D].
  intro I. apply In_map_filter in I. destruct I as (z & I & _ & E).
  apply N. rewrite <- E. apply in_map. exact I.
Qed.

Lemma NoDup_snoc {A : Type} (l : list A) (x : A) :
  NoDup l -> ~ In x l -> NoDup (l ++ [x]).
Proof.
  intros N I. apply NoDup_app; [exact N | repeat constructor; intros [] |].
  intros a Ia [<-|[]]. exact (I Ia).
Qed.

(** A wallet that [getAvailableWallet] returns is held by no agent. *)
Lemma available_wallet_unheld (db : Db) (w : FundedWallet) :
  holders_assigned db -> getAvailableWallet db = Some w ->
  ~ In (address w) (map row_funded_wallet_address (agents db)).
Proof.
  intros H G I. apply find_some in G. destruct G as [Iw F].
  apply in_map_iff in I. destruct I as (r & E & Ir).
  rewrite (H r w Ir Iw (eq_sym E)) in F. discriminate F.
Qed.

(** The two writes of an approval keep the store exclusive. *)
Lemma approval_keeps_store_ok (db db' : Db) (agent : Agent) (addr : string)
    (w : FundedWallet) :
  store_ok db ->
  getAvailableWallet db = Some w ->
  hl_address agent = Some addr ->
  funded_wallet_address agent = address w ->
  saveAgent agent (assignWallet (address w) (id agent) db) = Some db' ->
  store_ok db'.
Proof.
  intros (X & U & H) G A F S.
  pose proof (available_wallet_unheld db w H G) as Free.
  pose proof (saveAgent_agents _ _ _ _ A S) as Ag.
  pose proof (saveAgent_wallets _ _ _ _ A S) as Wa.
  cbn [agents funded_wallets assignWallet] in Ag, Wa.
  unfold store_ok, wallet_exclusive, address_unique, holders_assigned.
  rewrite Ag, Wa, !map_app.
  cbn [map row_funded_wallet_address row_hyperliquid_address].
  repeat apply conj.
  - apply NoDup_snoc; [apply NoDup_map_filter; exact X|].
    rewrite F. intro I. apply In_map_filter in I.
    destruct I as (r & I & _ & E). apply Free. rewrite <- E.
    apply in_map. exact I.
  - apply NoDup_snoc; [apply NoDup_map_filter; exact U|].
    intro I. apply In_map_filter in I. destruct I as (r & _ & C & E).
    unfold conflicts in C. rewrite E, String.eqb_refl, orb_true_r in C.
    discriminate C.
  - intros r w' Ir Iw E.
    apply in_map_iff in Iw. destruct Iw as (w0 & <- & Iw0).
    destruct (String.eqb (address w0) (address w)) eqn:Same; [reflexivity|].
    apply in_app_or in Ir. destruct Ir as [Ir|[<-|[]]].
    + apply filter_In in Ir. destruct Ir as [Ir _]. exact (H r w0 Ir Iw0 E).
    + cbn in E. rewrite F in E. rewrite E, String.eqb_refl in Same.
      discriminate Same.
Qed.

(** [/cancel] does not write to the store. *)
Lemma cancel_never_writes (env : Env) (body : option CancelInput.t)
    (db db' : Db) (f : Final Empty_set) (tr : list Event) :
  run env (post_cancel body) db = (f, db', tr) -> db' = db.
Proof.
  intro H. destruct body as [input|]; [|cbn in H; inversion H; reflexivity].
  unfold_handlers H. run_cases H; try discriminate H.
  all: inversion H; subst; reflexivity.
Qed.

(** One request served to its end keeps the store exclusive. *)
Lemma handler_keeps_store_ok (env : Env) (q : Request) (db : Db) :
  store_ok db -> store_ok (store_after (run env (handler q) db)).
Proof.
  intro OK.
  destruct (run env (handler q) db) as [[f db'] tr] eqn:R.
  cbn [store_after fst snd]. destruct q as [bypassPnl body|body|body];
    cbn [handler] in R.
  - destruct (evaluate_writes_on_approval_only _ _ _ _ _ _ _ R)
      as [->|(b & agent & m & msg & ->)]; [exact OK|].
    destruct body as [input|]; [|cbn in R; discriminate R].
    apply evaluate_approved in R.
    destruct R as (_ & A & _ & _ & w & G & F & S).
    eapply approval_keeps_store_ok; eassumption.
  - apply trade_never_revokes in R. destruct R as [-> _]. exact OK.
  - apply cancel_never_writes in R. subst db'. exact OK.
Qed.

End Exclusive.

(* ------------------------------------------------------------------ *)
(** ** What holds under every interleaving *)

Section Interleaving.

Variable P : Db -> Prop.

Lemma keeps_bind {A B : Type} (t : Task A) (f : A -> Task B) :
  keeps P t -> (forall a, keeps P (f a)) -> keeps P (bind t f).
Proof.
  intros K F. induction K; cbn; try (constructor; auto); auto.
Qed.

Lemma keeps_try_catch {A : Type} (t : Task A) (h : Exn -> Task A) :
  keeps P t -> (forall e, keeps P (h e)) -> keeps P (try_catch t h).
Proof.
  intros K F. induction K; cbn; try (constructor; auto); auto.
Qed.

Lemma keeps_throw_if_none {X : Type} (x : option X) :
  keeps P (throw_if_none x).
Proof. destruct x; constructor. Qed.

Lemma keeps_await {X : Type} (c : Async X) : keeps P (await c).
Proof. constructor. apply keeps_throw_if_none. Qed.

Lemma keeps_call {X : Type} (c : Lib X) : keeps P (call c).
Proof. constructor. apply keeps_throw_if_none. Qed.

Lemma keeps_query {X : Type} (q : Db -> X) : keeps P (query q).
Proof. constructor; [auto|apply keeps_throw_if_none]. Qed.

Lemma keeps_exec (u : Db -> Db) :
  (forall db, P db -> P (u db)) -> keeps P (exec u).
Proof. intro H. constructor; [exact H|apply keeps_throw_if_none]. Qed.

Lemma keeps_exec_or_throw (u : Db -> option Db) :
  (forall db db', P db -> u db = Some db' -> P db') ->
  keeps P (exec_or_throw u).
Proof.
  intro H. constructor; [|apply keeps_throw_if_none].
  intros db Pdb. destruct (u db) as [db'|] eqn:E; cbn; eauto.
Qed.

Lemma keeps_parse {I : Type} (body : option I) : keeps P (parse body).
Proof. destruct body; constructor. Qed.

Lemma keeps_handler_catch (e : Exn) : keeps P (handler_catch e).
Proof. destruct e; constructor. Qed.

Lemma advance_keeps {R : Type} (env : Env) (t : Task R) :
  keeps P t -> forall db, P db ->
  keeps P (fst (advance env t db)) /\ P (snd (advance env t db)).
Proof.
  intro K. induction K as [| | | | X c k _ IH | X stmt k S _ IH];
    intros db Pdb; cbn; try (split; [constructor; auto|exact Pdb]).
  - apply IH. exact Pdb.
  - specialize (S db Pdb). destruct (stmt db) as [x db1]. apply IH. exact S.
Qed.

Lemma turn_keeps {R : Type} (env : Env) (t : Task R) (db : Db) :
  keeps P t -> P db ->
  keeps P (fst (turn env t db)) /\ P (snd (turn env t db)).
Proof.
  intros K Pdb. destruct K; try (apply advance_keeps; [constructor; auto|auto]).
  cbn. apply advance_keeps; auto.
Qed.

Lemma turn_nth_keeps {R : Type} (i : nat) : forall (p : Pool R) (db : Db),
  Forall (fun et => keeps P (snd et)) p -> P db ->
  Forall (fun et => keeps P (snd et)) (fst (turn_nth i p db))
  /\ P (snd (turn_nth i p db)).
Proof.
  induction i as [|j IH]; intros [|[env t] p] db F Pdb; cbn; auto.
  - inversion F; subst. cbn in *.
    destruct (turn_keeps env t db) as [K Q]; auto.
    destruct (turn env t db) as [t' db']. cbn in *. auto.
  - inversion F; subst.
    destruct (IH p db) as [K Q]; auto.
    destruct (turn_nth j p db) as [p' db']. cbn in *. auto.
Qed.

Lemma run_schedule_keeps {R : Type} (sched : list nat) :
  forall (p : Pool R) (db : Db),
  Forall (fun et => keeps P (snd et)) p -> P db ->
  P (snd (run_schedule sched p db)).
Proof.
  induction sched as [|i sched IH]; intros p db F Pdb; cbn; [exact Pdb|].
  destruct (turn_nth_keeps i p db F Pdb) as [K Q].
  destruct (turn_nth i p db) as [p' db']. cbn in *. apply IH; assumption.
Qed.

End Interleaving.

(** [saveAgent] keeps the addresses of the agents distinct: the rows that
    have the address of the new row are deleted before it is added. *)
Lemma saveAgent_address_unique (agent : Agent) (db db' : Db) :
  address_unique db -> saveAgent agent db = Some db' -> address_unique db'.
Proof.
  intros U S. destruct (hl_address agent) as [addr|] eqn:A;
    [|unfold saveAgent in S; rewrite A in S; discriminate S].
  unfold address_unique. rewrite (saveAgent_agents _ _ _ _ A S), map_app.
  cbn [map row_hyperliquid_address].
  apply NoDup_snoc; [apply NoDup_map_filter; exact U|].
  intro I. apply In_map_filter in I. destruct I as (r & _ & C & E).
  unfold conflicts in C. rewrite E, String.eqb_refl, orb_true_r in C.
  discriminate C.
Qed.

Ltac keeps_step :=
  first
    [ apply keeps_try_catch
    | apply keeps_bind
    | apply keeps_query
    | apply keeps_await
    | apply keeps_call
    | apply keeps_parse
    | apply keeps_handler_catch
    | apply keeps_throw_if_none
    | apply keeps_Ret
    | apply keeps_Throw
    | apply keeps_Respond
    | apply keeps_exec; intros ? K; exact K
    | apply keeps_exec_or_throw; intros ? ? K S;
      exact (saveAgent_address_unique _ _ _ K S)
    | match goal with
      | |- keeps _ (match ?x with _ => _ end) => destruct x
      end
    | intro ].

(** The statements of the three handlers keep the addresses distinct. *)
Lemma handler_keeps_address_unique (q : Request) :
  keeps address_unique (handler q).
Proof.
  destruct q as [bypassPnl body|body|body]; cbn [handler];
    unfold post_evaluate, post_trade, post_cancel, trade_gate, trade_execute,
      analyzePnL, getBalance;
    repeat keeps_step.
Qed.

Lemma db_one_wallet_ok : store_ok db_one_wallet.
Proof.
  repeat split; try constructor. intros r w [].
Qed.

(** C9, the code at an input where the claim fails.  [alice] and [bob] are
    onboarded together on a pool of one wallet: both requests read the free
    wallet with [getAvailableWallet] before either reaches [assignWallet],
    both are approved with that wallet, and the store ends with two active
    agents on it.  The second [assignWallet] has overwritten the first: the
    wallet is assigned to the agent of [bob], [getWalletForAgent] finds no
    wallet for the agent of [alice], and her next trade is answered 500, no
    wallet assigned. *)
Theorem overlapping_onboardings_share_wallet :
  let race := run_schedule overlapping (in_flight two_onboardings)
                db_one_wallet in
  store_ok db_one_wallet
  /\ map (fun et => approved_wallet (sent (snd et))) (fst race)
     = [Some w1_address; Some w1_address]
  /\ map row_funded_wallet_address (agents (snd race))
     = [w1_address; w1_address]
  /\ map row_id (agents (snd race)) = [uuid_1; uuid_2]
  /\ map row_status (agents (snd race)) = [active; active]
  /\ map assigned_to (funded_wallets (snd race)) = [Some uuid_2]
  /\ getWalletForAgent uuid_1 (snd race) = None
  /\ run (env_of (world uuid_any [] 1000)) (post_trade (Some (buy_btc uuid_1)))
       (snd race)
     = (Sent no_wallet_assigned, snd race, [])
  /\ ~ wallet_exclusive (snd race)
  /\ ~ exclusive_under_interleaving.
Proof.
  cbv zeta.
  assert (E : map row_funded_wallet_address
                (agents (snd (run_schedule overlapping
                                (in_flight two_onboardings) db_one_wallet)))
              = [w1_address; w1_address])
    by (vm_compute; reflexivity).
  assert (N : ~ wallet_exclusive
                (snd (run_schedule overlapping (in_flight two_onboardings)
                        db_one_wallet))).
  { unfold wallet_exclusive. rewrite E. intro H.
    inversion H as [|? ? K _]; subst. apply K. left. reflexivity. }
  split; [exact db_one_wallet_ok|].
  split; [vm_compute; reflexivity|].
  split; [exact E|].
  split; [vm_compute; reflexivity|].
  split; [vm_compute; reflexivity|].
  split; [vm_compute; reflexivity|].
  split; [vm_compute; reflexivity|].
  split; [vm_compute; reflexivity|].
  split; [exact N|].
  intro H. apply N.
  exact (H two_onboardings overlapping db_one_wallet db_one_wallet_ok).
Qed.

(* ------------------------------------------------------------------ *)
(** ** A revoked agent stays revoked *)

(** A revoked agent is refused at the first check of [/trade], before any
    balance is read. *)
Lemma revoked_is_denied (env : Env) (input : TradeInput.t) (db : Db)
    (agent : Agent) :
  getAgent (TradeInput.agent_id input) db = Some agent ->
  status agent = revoked ->
  run env (post_trade (Some input)) db = (Sent access_revoked, db, []).
Proof.
  intros G R. unfold post_trade, trade_gate, parse, query. cbn.
  rewrite G. cbn. rewrite R. reflexivity.
Qed.

(** The identifier of an approved agent is the one [randomUUID] returned. *)
Lemma evaluate_approved_id (bypassPnl : bool) (input : EvaluateInput.t)
    (env : Env) (db db' : Db) (tr : list Event) (b : bool) (agent : Agent)
    (m : Metrics) (msg : string) :
  run env (post_evaluate bypassPnl (Some input)) db
  = (Sent (approved b agent m msg), db', tr) ->
  returns env _ randomUUID = Some (id agent).
Proof.
  intro H. unfold_handlers H. run_cases H; try discriminate H.
  all: inversion H; subst; reflexivity.
Qed.

Lemma find_none_all {A : Type} (p : A -> bool) (l : list A) (x : A) :
  find p l = None -> In x l -> p x = false.
Proof. intros F I. exact (find_none p l F x I). Qed.

(** No request served to its end removes or changes the row of an agent,
    unless [randomUUID] returns the identifier of that row again.  So a row
    whose status is [revoked] keeps it. *)
Lemma row_kept (env : Env) (q : Request) (db : Db) (r : AgentRow) :
  In r (agents db) ->
  returns env _ randomUUID <> Some (row_id r) ->
  In r (agents (store_after (run env (handler q) db))).
Proof.
  intros I Fresh.
  destruct (run env (handler q) db) as [[f db'] tr] eqn:R.
  cbn [store_after fst snd]. destruct q as [bypassPnl body|body|body];
    cbn [handler] in R.
  - destruct (evaluate_writes_on_approval_only _ _ _ _ _ _ _ R)
      as [->|(b & agent & m & msg & ->)]; [exact I|].
    destruct body as [input|]; [|cbn in R; discriminate R].
    pose proof (evaluate_approved_id _ _ _ _ _ _ _ _ _ _ R) as U.
    apply evaluate_approved in R.
    destruct R as (N & A & _ & _ & w & _ & _ & S).
    rewrite (saveAgent_agents _ _ _ _ A S). apply in_or_app. left.
    cbn [agents assignWallet]. apply filter_In. split; [exact I|].
    unfold conflicts. apply negb_true_iff, orb_false_iff. split.
    + apply String.eqb_neq. intro E. apply Fresh. rewrite U, E. reflexivity.
    + unfold getAgentByHyperliquidAddress in N.
      destruct (find _ (agents db)) eqn:F; [discriminate N|].
      exact (find_none_all _ _ r F I).
  - apply trade_never_revokes in R. destruct R as [-> _]. exact I.
  - apply cancel_never_writes in R. subst db'. exact I.
Qed.

(* ================================================================== *)
(** * Further properties of the code *)

(** ** The loop of the analyzer *)

Section Loop.

Lemma of_nat_le (n m : nat) : (n <= m)%nat -> JS.of_nat n <= JS.of_nat m.
Proof.
  intro H. unfold JS.of_nat. rewrite <- Zle_Qle. lia.
Qed.

Lemma of_nat_pos (n : nat) : (0 < n)%nat -> 0 < JS.of_nat n.
Proof.
  intro H. unfold JS.of_nat. change 0 with (inject_Z 0).
  rewrite <- Zlt_Qlt. lia.
Qed.

Lemma winners_length (fills : list Fill) :
  (length (winners fills) <= length fills)%nat.
Proof. apply filter_length_le. Qed.

(** The counters of the loop from any state. *)
Lemma fold_counters (fills : list Fill) : forall s,
  wins (fold_left loop_body fills s)
  = (wins s + length (winners fills))%nat
  /\ totalPnl (fold_left loop_body fills s) == totalPnl s + sum_pnl fills
  /\ (totalPnl s = runningPnl s ->
      totalPnl (fold_left loop_body fills s)
      = runningPnl (fold_left loop_body fills s)).
Proof.
  induction fills as [|fill rest IH]; intro s.
  - cbn. repeat split; [lia | lra | auto].
  - cbn [fold_left]. destruct (IH (loop_body s fill)) as (W & T & R).
    rewrite W. split; [|split].
    + unfold loop_body, winners. cbn [wins filter].
      destruct (JS.gt (closedPnl fill) 0); cbn [length]; lia.
    + rewrite T. cbn. lra.
    + intro E. apply R. cbn. rewrite E. reflexivity.
Qed.

(** The peak and the drawdown only go up, and the peak is never below the
    running PnL. *)
Lemma loop_body_up (s : Acc) (fill : Fill) :
  peak s <= peak (loop_body s fill)
  /\ maxDrawdown s <= maxDrawdown (loop_body s fill)
  /\ runningPnl (loop_body s fill) <= peak (loop_body s fill).
Proof.
  unfold loop_body. cbn [peak maxDrawdown runningPnl].
  set (r := runningPnl s + closedPnl fill).
  assert (P : peak s <= (if JS.gt r (peak s) then r else peak s)
              /\ r <= (if JS.gt r (peak s) then r else peak s)).
  { destruct (JS.gt r (peak s)) eqn:E.
    - apply gt_true in E. lra.
    - apply gt_false in E. lra. }
  split; [apply P|]. split; [|apply P].
  match goal with |- _ <= (if ?c then _ else _) =>
    destruct c eqn:E; [apply gt_true in E; lra|lra]
  end.
Qed.

Lemma fold_up (more : list Fill) : forall s,
  peak s <= peak (fold_left loop_body more s)
  /\ maxDrawdown s <= maxDrawdown (fold_left loop_body more s).
Proof.
  induction more as [|fill rest IH]; intro s; [cbn; lra|].
  cbn [fold_left]. destruct (IH (loop_body s fill)) as [P M].
  destruct (loop_body_up s fill) as (P' & M' & _). lra.
Qed.

Lemma fold_below_peak (fills : list Fill) : forall s,
  runningPnl s <= peak s ->
  runningPnl (fold_left loop_body fills s)
  <= peak (fold_left loop_body fills s).
Proof.
  induction fills as [|fill rest IH]; intros s H; [exact H|].
  cbn [fold_left]. apply IH. apply loop_body_up.
Qed.

(** A run of winning fills from a state at its peak keeps the drawdown at
    0. *)
Lemma fold_winning (fills : list Fill) : forall s,
  maxDrawdown s = 0 -> peak s == runningPnl s -> 0 <= runningPnl s ->
  Forall (fun fill => 0 < closedPnl fill) fills ->
  maxDrawdown (fold_left loop_body fills s) = 0.
Proof.
  induction fills as [|fill rest IH]; intros s M P R F; [exact M|].
  cbn [fold_left]. inversion F as [|? ? Pos F']; subst.
  apply IH; try assumption; unfold loop_body;
    cbn [maxDrawdown peak runningPnl].
  - assert (G : JS.gt (runningPnl s + closedPnl fill) (peak s) = true)
      by (apply gt_true; lra).
    rewrite G.
    assert (G0 : JS.gt (runningPnl s + closedPnl fill) 0 = true)
      by (apply gt_true; lra).
    rewrite G0, M.
    match goal with |- (if ?c then _ else _) = 0 =>
      destruct c eqn:E; [|reflexivity]
    end.
    apply gt_true in E. exfalso. revert E. apply Qle_not_lt.
    apply Qle_shift_div_r; lra.
  - assert (G : JS.gt (runningPnl s + closedPnl fill) (peak s) = true)
      by (apply gt_true; lra).
    rewrite G. reflexivity.
  - lra.
Qed.

Lemma sum_pnl_positive (fills : list Fill) :
  Forall (fun fill => 0 < closedPnl fill) fills -> 0 <= sum_pnl fills.
Proof.
  induction 1 as [|fill rest P _ IH]; cbn; lra.
Qed.

Lemma winners_all (fills : list Fill) :
  Forall (fun fill => 0 < closedPnl fill) fills -> winners fills = fills.
Proof.
  induction 1 as [|fill rest P _ IH]; [reflexivity|].
  unfold winners in *. cbn. apply gt_true in P. rewrite P, IH. reflexivity.
Qed.

Lemma winners_none (fills : list Fill) :
  Forall (fun fill => closedPnl fill <= 0) fills -> winners fills = [].
Proof.
  induction 1 as [|fill rest P _ IH]; [reflexivity|].
  unfold winners in *. cbn. apply gt_false in P. rewrite P, IH. reflexivity.
Qed.

Lemma winners_perm (fills fills' : list Fill) :
  Permutation fills fills' ->
  length (winners fills) = length (winners fills').
Proof.
  unfold winners. induction 1 as [|x l l' _ IH|x y l|l l' l'' _ IH1 _ IH2];
    cbn; try reflexivity.
  - destruct (JS.gt (closedPnl x) 0); cbn; lia.
  - destruct (JS.gt (closedPnl x) 0), (JS.gt (closedPnl y) 0); reflexivity.
  - lia.
Qed.

Lemma winRate_as_count (fills : list Fill) :
  winRate fills
  = JS.of_nat (length (winners fills)) / JS.of_nat (length fills).
Proof.
  unfold winRate, loop. destruct (fold_counters fills acc0) as (W & _).
  rewrite W. reflexivity.
Qed.

Lemma winRate_bounds (fills : list Fill) :
  0 <= winRate fills /\ winRate fills <= 1.
Proof.
  rewrite winRate_as_count.
  pose proof (winners_length fills) as L.
  destruct (length fills) as [|n] eqn:E.
  - assert (Z : length (winners fills) = 0%nat) by lia. rewrite Z.
    vm_compute. split; discriminate.
  - assert (P : 0 < JS.of_nat (S n)) by (apply of_nat_pos; lia).
    apply of_nat_le in L.
    assert (N : 0 <= JS.of_nat (length (winners fills)))
      by (apply (of_nat_le 0); lia).
    split.
    + apply Qle_shift_div_l; lra.
    + apply Qle_shift_div_r; lra.
Qed.

End Loop.

(** X1.  In the loop of [analyzePnL], [wins] is the number of fills with a
    positive PnL, [totalPnl] and [runningPnl] are the same number, the sum
    of the closed PnLs, and the win rate, unrounded and as returned, is
    between 0 and 1. *)
Theorem analyzer_counters (fills : list Fill) :
  wins (loop fills) = length (winners fills)
  /\ (wins (loop fills) <= length fills)%nat
  /\ totalPnl (loop fills) = runningPnl (loop fills)
  /\ totalPnl (loop fills) == sum_pnl fills
  /\ (0 <= winRate fills /\ winRate fills <= 1)
  /\ (0 <= win_rate (analyzeFills fills)
      /\ win_rate (analyzeFills fills) <= 1)
  /\ total_trades (analyzeFills fills) = length fills.
Proof.
  destruct (fold_counters fills acc0) as (W & T & R).
  cbn [wins totalPnl acc0] in W, T. fold (loop fills) in W, T, R.
  split; [exact W|]. split; [rewrite W; apply winners_length|].
  split; [apply R; reflexivity|]. split; [rewrite T; lra|].
  pose proof (winRate_bounds fills) as B. split; [exact B|].
  unfold analyzeFills.
  destruct (length fills <? RISK_GATES.MIN_TRADES)%nat;
    cbn [win_rate total_trades].
  - split; [split; lra|reflexivity].
  - split; [|reflexivity]. apply rounded_in_unit_interval; apply B.
Qed.

(** X2.  The number of wins, the win rate and the number of trades of a
    history do not depend on the order of its fills; the maximum drawdown
    and with it the verdict do: the same ten fills fail, on drawdown alone,
    with the gain of 100 before the loss of 20, and pass with the loss
    first. *)
Theorem verdict_depends_on_order :
  (forall fills fills' : list Fill,
      Permutation fills fills' ->
      wins (loop fills) = wins (loop fills')
      /\ winRate fills = winRate fills'
      /\ total_trades (analyzeFills fills) = total_trades (analyzeFills fills'))
  /\ (Permutation history_gain_first history_loss_first
      /\ maxDrawdown (loop history_gain_first) == 0.2
      /\ maxDrawdown (loop history_loss_first) == 0
      /\ reasons (analyzeFills history_gain_first)
         = [DrawdownAbove (maxDrawdown (loop history_gain_first))]
      /\ passes (analyzeFills history_gain_first) = false
      /\ passes (analyzeFills history_loss_first) = true).
Proof.
  split.
  - intros fills fills' P.
    destruct (fold_counters fills acc0) as (W & _).
    destruct (fold_counters fills' acc0) as (W' & _).
    fold (loop fills) in W. fold (loop fills') in W'.
    split; [rewrite W, W', (winners_perm _ _ P); reflexivity|].
    split; [rewrite !winRate_as_count, (winners_perm _ _ P),
              (Permutation_length P); reflexivity|].
    unfold analyzeFills. rewrite (Permutation_length P).
    destruct (length fills' <? RISK_GATES.MIN_TRADES)%nat; reflexivity.
  - split; [apply perm_swap|]. repeat split; vm_compute; reflexivity.
Qed.

Lemma verdict_depends_on_order_witness :
  wins (loop (fills_of [10; -5])) = wins (loop (fills_of [-5; 10]))
  /\ winRate (fills_of [10; -5]) = winRate (fills_of [-5; 10])
  /\ total_trades (analyzeFills (fills_of [10; -5]))
     = total_trades (analyzeFills (fills_of [-5; 10])).
Proof.
  destruct verdict_depends_on_order as [P _].
  apply P. apply perm_swap.
Defined.

(** X3.  Adding fills to a history never lowers its peak or its maximum
    drawdown, and the peak is never below the running PnL nor below 0.  So
    a history whose drawdown is over [MAX_DRAWDOWN] fails, whatever fills
    follow. *)
Theorem drawdown_never_recovers (fills more : list Fill) :
  peak (loop fills) <= peak (loop (fills ++ more))
  /\ maxDrawdown (loop fills) <= maxDrawdown (loop (fills ++ more))
  /\ runningPnl (loop fills) <= peak (loop fills)
  /\ 0 <= peak (loop fills)
  /\ (RISK_GATES.MAX_DRAWDOWN < maxDrawdown (loop fills) ->
      passes (analyzeFills (fills ++ more)) = false).
Proof.
  assert (A : loop (fills ++ more) = fold_left loop_body more (loop fills))
    by apply fold_left_app.
  destruct (fold_up more (loop fills)) as [P M]. rewrite <- A in P, M.
  split; [exact P|]. split; [exact M|].
  split; [apply fold_below_peak; cbn; lra|].
  split; [apply (fold_up fills acc0)|].
  intro H. unfold analyzeFills.
  destruct (length (fills ++ more) <? RISK_GATES.MIN_TRADES)%nat;
    [reflexivity|].
  cbn [passes]. apply Nat.eqb_neq. intro Z.
  apply length_zero_iff_nil, gate_reasons_nil in Z.
  destruct Z as (_ & _ & Z). apply gt_false in Z. lra.
Qed.

Lemma drawdown_never_recovers_witness :
  passes (analyzeFills (history_deep ++ history_wins)) = false.
Proof.
  apply (drawdown_never_recovers history_deep history_wins).
  vm_compute. reflexivity.
Defined.

(** X4.  A history of at least [MIN_TRADES] fills that all have a positive
    PnL passes, with no reason; a history with no positive PnL fails,
    whatever its length. *)
Theorem all_wins_pass_all_losses_fail (fills : list Fill) :
  ((RISK_GATES.MIN_TRADES <= length fills)%nat ->
   Forall (fun fill => 0 < closedPnl fill) fills ->
   passes (analyzeFills fills) = true /\ reasons (analyzeFills fills) = [])
  /\ (Forall (fun fill => closedPnl fill <= 0) fills ->
      passes (analyzeFills fills) = false).
Proof.
  split.
  - intros L F. unfold analyzeFills.
    apply Nat.ltb_ge in L. rewrite L. cbn [passes reasons].
    assert (N : gate_reasons fills = []).
    { apply gate_reasons_nil.
      destruct (fold_counters fills acc0) as (_ & T & _).
      fold (loop fills) in T. cbn [totalPnl acc0] in T.
      pose proof (sum_pnl_positive fills F) as S.
      rewrite !lt_false, gt_false. split; [|split].
      - rewrite winRate_as_count, (winners_all fills F).
        apply Nat.ltb_ge in L.
        assert (P : 0 < JS.of_nat (length fills))
          by (apply of_nat_pos; unfold RISK_GATES.MIN_TRADES in L; lia).
        apply Qle_shift_div_l; [exact P|].
        unfold RISK_GATES.MIN_WINRATE.
        assert (E : 0.45 * JS.of_nat (length fills)
                    <= 1 * JS.of_nat (length fills))
          by (apply Qmult_le_compat_r; [discriminate|lra]).
        lra.
      - rewrite T. unfold RISK_GATES.MIN_TOTAL_PNL. lra.
      - unfold loop. rewrite (fold_winning fills acc0); try reflexivity;
          [discriminate | cbn; lra | exact F]. }
    rewrite N. split; reflexivity.
  - intro F. unfold analyzeFills.
    destruct (length fills <? RISK_GATES.MIN_TRADES)%nat eqn:L;
      [reflexivity|].
    cbn [passes]. apply Nat.eqb_neq. intro Z.
    apply length_zero_iff_nil, gate_reasons_nil in Z.
    destruct Z as (Z & _). apply lt_false in Z.
    rewrite winRate_as_count, (winners_none fills F) in Z.
    apply Nat.ltb_ge in L.
    assert (P : 0 < JS.of_nat (length fills))
      by (apply of_nat_pos; unfold RISK_GATES.MIN_TRADES in L; lia).
    assert (E : JS.of_nat (length (@nil Fill)) / JS.of_nat (length fills) == 0).
    { change (JS.of_nat (length (@nil Fill))) with 0. field. lra. }
    rewrite E in Z. revert Z. vm_compute. auto.
Qed.

Lemma all_wins_pass_all_losses_fail_witness :
  (passes (analyzeFills history_wins) = true
   /\ reasons (analyzeFills history_wins) = [])
  /\ passes (analyzeFills history_losses) = false.
Proof.
  split.
  - apply (all_wins_pass_all_losses_fail history_wins).
    + unfold RISK_GATES.MIN_TRADES, history_wins, fills_of. simpl. lia.
    + vm_compute. repeat constructor.
  - apply (all_wins_pass_all_losses_fail history_losses).
    vm_compute. repeat constructor; discriminate.
Defined.

(* ------------------------------------------------------------------ *)
(** ** Reading a balance *)

(** X7.  [getBalance] never throws: whatever the two reads answer, it makes
    both, in order, leaves the store and returns.  A failed perps read gives
    0 for the margin used and the withdrawable amount; the account value is
    the perps account value, or 0, plus the total of the first USDC entry of
    the spot balances, or 0; with both reads failing it is 0. *)
Theorem getBalance_total (env : Env) (address : string) (db : Db) :
  exists bal,
    run env (getBalance address) db
    = (Returned bal, db,
       [awaited (clearinghouseState address);
        awaited (spotClearinghouseState address)])
    /\ (answer env _ (clearinghouseState address) = None ->
        totalMarginUsed bal = 0 /\ withdrawable bal = 0)
    /\ (forall state,
           answer env _ (clearinghouseState address) = Some state ->
           totalMarginUsed bal = cs_totalMarginUsed state
           /\ withdrawable bal = cs_withdrawable state)
    /\ accountValue bal
       = match answer env _ (clearinghouseState address) with
         | Some state => cs_accountValue state
         | None => 0
         end
         + match answer env _ (spotClearinghouseState address) with
           | Some spot =>
               match find (fun b => String.eqb (sb_coin b) "USDC") spot with
               | Some spotUsdc => sb_total spotUsdc
               | None => 0
               end
           | None => 0
           end.
Proof.
  unfold getBalance, await. cbn.
  destruct (answer env _ (clearinghouseState address)) as [state|]; cbn;
    destruct (answer env _ (spotClearinghouseState address)) as [spot|]; cbn;
    try destruct (find _ spot); cbn;
    eexists; (split; [reflexivity|]); cbn.
  all: split; [intro E; try discriminate E; split; reflexivity|].
  all: split; [|reflexivity].
  all: intros st E; try discriminate E; inversion E; subst; split; reflexivity.
Qed.

Lemma getBalance_total_witness :
  exists bal,
    run (env_of (world_no_balance uuid_any [])) (getBalance w1_address) db_one_wallet
    = (Returned bal, db_one_wallet,
       [awaited (clearinghouseState w1_address);
        awaited (spotClearinghouseState w1_address)])
    /\ totalMarginUsed bal = 0 /\ withdrawable bal = 0.
Proof.
  destruct (getBalance_total (env_of (world_no_balance uuid_any [])) w1_address
              db_one_wallet) as (bal & R & Z & _).
  exists bal. split; [exact R|]. apply Z. reflexivity.
Defined.

(* ------------------------------------------------------------------ *)
(** ** The gates of onboarding, forwards *)

(** X8.  [/evaluate] checks the signature before it reads anything of the
    exchange: for an address that is not registered, a signature that does
    not verify is answered 401 with the message to sign, and a failing
    verification or a failing read of the fills is answered 500; in each
    case the store is as before, no balance is read, and with a bad
    signature no fills are read either.  A body that the schema rejects is
    answered 400 with no call at all. *)
Theorem evaluate_checks_signature_first (bypassPnl : bool)
    (input : EvaluateInput.t) (env : Env) (db : Db) :
  let addr := EvaluateInput.hyperliquid_address input in
  let message := (AUTH_MESSAGE_PREFIX ++ addr)%string in
  let verify := verifyMessage addr message (EvaluateInput.signature input) in
  getAgentByHyperliquidAddress addr db = None ->
  (answer env _ verify = Some false ->
   run env (post_evaluate bypassPnl (Some input)) db
   = (Sent (invalid_signature message), db, [awaited verify]))
  /\ (answer env _ verify = None ->
      run env (post_evaluate bypassPnl (Some input)) db
      = (Sent internal_server_error, db, [awaited verify]))
  /\ (answer env _ verify = Some true ->
      answer env _ (userFills addr) = None ->
      run env (post_evaluate bypassPnl (Some input)) db
      = (Sent internal_server_error, db,
         [awaited verify; awaited (userFills addr)]))
  /\ run env (post_evaluate bypassPnl None) db = (Sent invalid_input, db, []).
Proof.
  intros addr message verify N. subst addr message verify.
  unfold post_evaluate, analyzePnL, query, parse, await. cbn.
  rewrite N. cbn. repeat apply conj.
  - intro V. rewrite V. reflexivity.
  - intro V. rewrite V. reflexivity.
  - intros V F. rewrite V. cbn. rewrite F. reflexivity.
  - reflexivity.
Qed.

Lemma evaluate_checks_signature_first_witness :
  run (env_of world_bad_signature) (post_evaluate true (Some alice))
    db_one_wallet
  = (Sent (invalid_signature (AUTH_MESSAGE_PREFIX ++ addr_alice)),
     db_one_wallet,
     [awaited (verifyMessage addr_alice (AUTH_MESSAGE_PREFIX ++ addr_alice)
                 "0x5a")]).
Proof.
  apply (evaluate_checks_signature_first true alice
           (env_of world_bad_signature) db_one_wallet);
    reflexivity.
Defined.

(** X9.  Onboarding does not depend on the balance reads: for an address
    that is not registered, with a signature that verifies, fills that pass
    the analysis (or the bypass flag set) and a free wallet, [/evaluate]
    approves whatever the two balance reads answer.  The agent created is
    active, with zero totals, on the first free wallet, with the balance
    that [getBalance] returned as its initial capital; the answer says
    [approved_bypass] exactly when the analysis failed; and the store holds
    the agent and the assignment. *)
Theorem evaluate_approves (bypassPnl : bool) (input : EvaluateInput.t)
    (env : Env) (db : Db) (fills : list Fill) (wallet : FundedWallet)
    (uuid now : string) :
  let addr := EvaluateInput.hyperliquid_address input in
  let message := (AUTH_MESSAGE_PREFIX ++ addr)%string in
  let verify := verifyMessage addr message (EvaluateInput.signature input) in
  getAgentByHyperliquidAddress addr db = None ->
  answer env _ verify = Some true ->
  answer env _ (userFills addr) = Some fills ->
  passes (analyzeFills fills) || bypassPnl = true ->
  getAvailableWallet db = Some wallet ->
  returns env _ randomUUID = Some uuid ->
  returns env _ Date_toISOString = Some now ->
  exists bal db',
    run env (getBalance (address wallet)) db
    = (Returned bal, db,
       [awaited (clearinghouseState (address wallet));
        awaited (spotClearinghouseState (address wallet))])
    /\ run env (post_evaluate bypassPnl (Some input)) db
       = (Sent (approved (negb (passes (analyzeFills fills)))
                  (new_agent uuid addr (address wallet) (accountValue bal) now)
                  (analyzeFills fills) message),
          db',
          [awaited verify; awaited (userFills addr);
           awaited (clearinghouseState (address wallet));
           awaited (spotClearinghouseState (address wallet));
           called randomUUID; called Date_toISOString])
    /\ saveAgent (new_agent uuid addr (address wallet) (accountValue bal) now)
         (assignWallet (address wallet) uuid db) = Some db'
    /\ getAgent uuid db'
       = Some (reloaded
                 (new_agent uuid addr (address wallet) (accountValue bal) now)
                 addr).
Proof.
  intros addr message verify N V F P W U D. subst addr message verify.
  assert (B : negb (passes (analyzeFills fills)) && negb bypassPnl = false).
  { destruct (passes (analyzeFills fills)), bypassPnl;
      try reflexivity; discriminate P. }
  unfold post_evaluate, analyzePnL, getBalance, query, exec, exec_or_throw,
    parse, await, call. cbn.
  rewrite N. cbn. rewrite V. cbn. rewrite F. cbn. rewrite B. cbn.
  rewrite W. cbn.
  destruct (answer env _ (clearinghouseState (address wallet))) as [state|];
    cbn;
    destruct (answer env _ (spotClearinghouseState (address wallet)))
      as [spot|]; cbn;
    try destruct (find _ spot); cbn;
    rewrite U; cbn; rewrite D; cbn.
  all: eexists _, _; split; [reflexivity|].
  all: split; [reflexivity|]. all: split; [reflexivity|].
  all: match goal with
       | |- getAgent _ ?d = Some (reloaded ?a ?x) =>
           apply (getAgent_saveAgent a x
                    (assignWallet (address wallet) uuid db) d eq_refl eq_refl)
       end.
Qed.

Lemma evaluate_approves_witness :
  exists bal db',
    run (env_of (world_no_balance uuid_1 []))
      (post_evaluate true (Some alice)) db_one_wallet
    = (Sent (approved true
               (new_agent uuid_1 addr_alice w1_address (accountValue bal)
                  "2025-01-01T00:00:00.000Z")
               (analyzeFills []) (AUTH_MESSAGE_PREFIX ++ addr_alice)),
       db',
       [awaited (verifyMessage addr_alice (AUTH_MESSAGE_PREFIX ++ addr_alice)
                   "0x5a");
        awaited (userFills addr_alice);
        awaited (clearinghouseState w1_address);
        awaited (spotClearinghouseState w1_address);
        called randomUUID; called Date_toISOString])
    /\ getAgent uuid_1 db'
       = Some (reloaded
                 (new_agent uuid_1 addr_alice w1_address (accountValue bal)
                    "2025-01-01T00:00:00.000Z") addr_alice).
Proof.
  destruct (evaluate_approves true alice
              (env_of (world_no_balance uuid_1 [])) db_one_wallet []
              {| address := w1_address; api_id := "acc_1"; assigned_to := None |}
              uuid_1 "2025-01-01T00:00:00.000Z")
    as (bal & db' & _ & R & _ & G); try reflexivity.
  exists bal, db'. split; [exact R|exact G].
Defined.

(* ------------------------------------------------------------------ *)
(** ** From an approval to the trade gate *)

Lemma getWalletForAgent_assignWallet (agentId : string) (target : string) :
  forall wallets : list FundedWallet,
    (exists w, In w wallets /\ address w = target) ->
    Forall (fun w => is_assigned_to agentId w = false) wallets ->
    exists w',
      getWalletForAgent agentId
        (assignWallet target agentId {| agents := []; funded_wallets := wallets |})
      = Some w'
      /\ address w' = target /\ assigned_to w' = Some agentId.
Proof.
  unfold getWalletForAgent, assignWallet. cbn [funded_wallets].
  induction wallets as [|w0 rest IH]; intros (w & I & A) F;
    [destruct I|].
  inversion F as [|? ? F0 F']; subst. cbn [map find].
  destruct (String.eqb (address w0) (address w)) eqn:E.
  - unfold is_assigned_to at 1. cbn. rewrite String.eqb_refl.
    eexists. split; [reflexivity|]. cbn. apply String.eqb_eq in E. auto.
  - rewrite F0. destruct I as [->|I]; [rewrite String.eqb_refl in E;
                                       discriminate E|].
    apply IH; [exists w; auto|exact F'].
Qed.

(** An approved agent starts with a trade count of 0. *)
Lemma evaluate_approved_tc (bypassPnl : bool) (input : EvaluateInput.t)
    (env : Env) (db db' : Db) (tr : list Event) (b : bool) (agent : Agent)
    (m : Metrics) (msg : string) :
  run env (post_evaluate bypassPnl (Some input)) db
  = (Sent (approved b agent m msg), db', tr) ->
  trade_count agent = 0%Z.
Proof.
  intro H. unfold_handlers H. run_cases H; try discriminate H.
  all: inversion H; subst; reflexivity.
Qed.

(** X10.  An approval composes with the trade gate: when no wallet of the
    pool was assigned to the new identifier before, the agent that
    [/evaluate] approved is found by [/trade] under its [id], with the
    wallet of the approval, and passes the gate: the gate reads the balance
    of that wallet twice and falls through, without a write. *)
Theorem approved_agent_passes_gate (bypassPnl : bool)
    (input : EvaluateInput.t) (env env' : Env) (db db' : Db)
    (tr : list Event) (b : bool) (agent : Agent) (m : Metrics) (msg : string)
    (order : TradeInput.t) :
  run env (post_evaluate bypassPnl (Some input)) db
  = (Sent (approved b agent m msg), db', tr) ->
  Forall (fun w => is_assigned_to (id agent) w = false) (funded_wallets db) ->
  TradeInput.agent_id order = id agent ->
  exists wallet,
    getWalletForAgent (id agent) db' = Some wallet
    /\ address wallet = funded_wallet_address agent
    /\ run env' (trade_gate order) db'
       = (Returned
            (reloaded agent (EvaluateInput.hyperliquid_address input), wallet),
          db',
          [awaited (clearinghouseState (address wallet));
           awaited (spotClearinghouseState (address wallet))]).
Proof.
  intros R F I.
  destruct (evaluate_approved _ _ _ _ _ _ _ _ _ _ R)
    as (_ & A & _ & S & w & G & W & Sv).
  pose proof (getAgent_saveAgent _ _ _ _ A Sv) as GA.
  pose proof (saveAgent_wallets _ _ _ _ A Sv) as Wa.
  destruct (getWalletForAgent_assignWallet (id agent) (address w)
              (funded_wallets db)) as (w' & L & Aw & _).
  { exists w. split; [|reflexivity].
    unfold getAvailableWallet in G. apply find_some in G. apply G. }
  { exact F. }
  assert (L' : getWalletForAgent (id agent) db' = Some w').
  { unfold getWalletForAgent in *. rewrite Wa. exact L. }
  exists w'. split; [exact L'|]. split; [congruence|].
  apply trade_gate_passes.
  - rewrite I. exact GA.
  - cbn. exact S.
  - cbn. rewrite (evaluate_approved_tc _ _ _ _ _ _ _ _ _ _ R). reflexivity.
  - exact L'.
Qed.

Lemma approved_agent_passes_gate_witness :
  let first := run (env_of (world uuid_1 history_12 1000))
                 (post_evaluate false (Some alice)) db_one_wallet in
  exists wallet agent,
    getWalletForAgent uuid_1 (store_after first) = Some wallet
    /\ address wallet = w1_address
    /\ run (env_of (world uuid_any [] 800)) (trade_gate (buy_btc uuid_1))
         (store_after first)
       = (Returned (agent, wallet), store_after first,
          [awaited (clearinghouseState (address wallet));
           awaited (spotClearinghouseState (address wallet))]).
Proof.
  intro first. subst first.
  destruct (run (env_of (world uuid_1 history_12 1000))
              (post_evaluate false (Some alice)) db_one_wallet)
    as [[f1 db1] tr1] eqn:R.
  assert (A : exists b m msg agent,
             f1 = Sent (approved b agent m msg)
             /\ id agent = uuid_1
             /\ funded_wallet_address agent = w1_address).
  { vm_compute in R. inversion R. do 4 eexists. repeat split; reflexivity. }
  destruct A as (b & m & msg & agent & -> & I & W).
  destruct (approved_agent_passes_gate false alice
              (env_of (world uuid_1 history_12 1000))
              (env_of (world uuid_any [] 800)) db_one_wallet db1 tr1 b agent m msg
              (buy_btc uuid_1) R) as (wallet & G & A & T).
  - rewrite I. repeat constructor.
  - rewrite I. reflexivity.
  - exists wallet, (reloaded agent (EvaluateInput.hyperliquid_address alice)).
    cbn [store_after fst snd].
    split; [rewrite <- I; exact G|]. split; [congruence|exact T].
Defined.

(* ------------------------------------------------------------------ *)
(** ** The answers of [/trade] *)

(** The answers that [/trade] can give. *)
Lemma trade_answers (env : Env) (body : option TradeInput.t) (db db' : Db)
    (f : Final Empty_set) (tr : list Event) :
  run env (post_trade body) db = (f, db', tr) ->
  exists res,
    f = Sent res
    /\ (res = invalid_input \/ res = agent_not_found \/ res = access_revoked
        \/ res = daily_trade_limit \/ res = no_wallet_assigned
        \/ (exists c, res = coin_not_found c)
        \/ res = internal_server_error)
    /\ (existsb is_order tr = true -> res = internal_server_error).
Proof.
  intro H. destruct body as [input|].
  2:{ cbn in H. inversion H. eexists. split; [reflexivity|].
      split; [auto|discriminate]. }
  unfold post_trade, trade_gate, parse, query in H. cbn in H.
  destruct (getAgent (TradeInput.agent_id input) db) as [agent|] eqn:G.
  2:{ cbn in H. inversion H. eexists. split; [reflexivity|].
      split; [auto|discriminate]. }
  destruct (getAgent_is_row _ _ _ G) as (r & _ & _ & ->).
  unfold_handlers H. run_cases H; try discriminate H; try saveAgent_throws.
  all: inversion H; subst; eexists; (split; [reflexivity|]).
  all: split; [|cbn; try discriminate; reflexivity].
  all: try (left; reflexivity).
  all: try (right; left; reflexivity).
  all: try (right; right; left; reflexivity).
  all: try (right; right; right; left; reflexivity).
  all: try (right; right; right; right; left; reflexivity).
  all: try (right; right; right; right; right; left; eexists; reflexivity).
  all: right; right; right; right; right; right; reflexivity.
Qed.

(** X11.  [/trade] decides in this order, each time with no outside call and
    no write: a body that the schema rejects is answered 400; an unknown
    agent 404; a revoked agent 403, whatever its trade count; an active
    agent at or over [MAX_DAILY_TRADES] 429, whether it has a wallet or
    not; an active agent under its quota with no wallet assigned 500. *)
Theorem trade_gate_order (env : Env) (input : TradeInput.t) (db : Db) :
  run env (post_trade None) db = (Sent invalid_input, db, [])
  /\ (getAgent (TradeInput.agent_id input) db = None ->
      run env (post_trade (Some input)) db = (Sent agent_not_found, db, []))
  /\ (forall agent,
         getAgent (TradeInput.agent_id input) db = Some agent ->
         (status agent = revoked ->
          run env (post_trade (Some input)) db
          = (Sent access_revoked, db, []))
         /\ (status agent = active ->
             (RISK_GATES.MAX_DAILY_TRADES <= trade_count agent)%Z ->
             run env (post_trade (Some input)) db
             = (Sent daily_trade_limit, db, []))
         /\ (status agent = active ->
             (trade_count agent < RISK_GATES.MAX_DAILY_TRADES)%Z ->
             getWalletForAgent (id agent) db = None ->
             run env (post_trade (Some input)) db
             = (Sent no_wallet_assigned, db, []))).
Proof.
  split; [reflexivity|]. split.
  - intro G. unfold post_trade, trade_gate, parse, query. cbn.
    rewrite G. reflexivity.
  - intros agent G. split; [apply revoked_is_denied; exact G|].
    unfold post_trade, trade_gate, parse, query. cbn. rewrite G. cbn.
    split.
    + intros A Q. rewrite A. cbn. apply Z.leb_le in Q. rewrite Q.
      reflexivity.
    + intros A Q W. rewrite A. cbn. apply Z.leb_gt in Q. rewrite Q. cbn.
      rewrite W. reflexivity.
Qed.

Lemma trade_gate_order_witness :
  run (env_of (world uuid_any [] 800)) (post_trade (Some (buy_btc uuid_nobody)))
    db_mixed
  = (Sent agent_not_found, db_mixed, [])
  /\ run (env_of (world uuid_any [] 800)) (post_trade (Some (buy_btc uuid_r)))
       db_mixed
     = (Sent access_revoked, db_mixed, [])
  /\ run (env_of (world uuid_any [] 800)) (post_trade (Some (buy_btc uuid_q)))
       db_mixed
     = (Sent daily_trade_limit, db_mixed, [])
  /\ run (env_of (world uuid_any [] 800)) (post_trade (Some (buy_btc uuid_n)))
       db_mixed
     = (Sent no_wallet_assigned, db_mixed, []).
Proof.
  split; [|split; [|split]].
  - apply (trade_gate_order (env_of (world uuid_any [] 800)) (buy_btc uuid_nobody)
             db_mixed). reflexivity.
  - destruct (trade_gate_order (env_of (world uuid_any [] 800))
                (buy_btc uuid_r) db_mixed) as (_ & _ & T).
    destruct (T (row_as_Agent row_revoked) eq_refl) as (K & _).
    apply K. reflexivity.
  - destruct (trade_gate_order (env_of (world uuid_any [] 800))
                (buy_btc uuid_q) db_mixed) as (_ & _ & T).
    destruct (T _ eq_refl) as (_ & K & _).
    apply K; [reflexivity|]. cbn. unfold RISK_GATES.MAX_DAILY_TRADES. lia.
  - destruct (trade_gate_order (env_of (world uuid_any [] 800))
                (buy_btc uuid_n) db_mixed) as (_ & _ & T).
    destruct (T _ eq_refl) as (_ & _ & K).
    apply K; reflexivity.
Defined.

(** X12.  [/trade] never answers 200 and never changes the store.  The agent
    object comes from the store and has no [hl_address], so the
    [saveAgent] that ends a trade throws: a request that got as far as
    placing its order is answered 500, and neither the trade count nor the
    profit split reaches the store.  Nor does it ever answer
    [drawdown_exceeded]. *)
Theorem trade_never_completes (env : Env) (body : option TradeInput.t)
    (db : Db) :
  store_after (run env (post_trade body) db) = db
  /\ exists res,
       answer_of (run env (post_trade body) db) = Some res
       /\ http_status res <> 200%nat
       /\ (forall d, res <> drawdown_exceeded d)
       /\ (existsb is_order (trace_of (run env (post_trade body) db)) = true ->
           res = internal_server_error).
Proof.
  destruct (run env (post_trade body) db) as [[f db'] tr] eqn:R.
  unfold store_after, answer_of, trace_of. cbn [fst snd].
  destruct (trade_never_revokes _ _ _ _ _ _ R) as [-> _].
  split; [reflexivity|].
  destruct (trade_answers _ _ _ _ _ _ R) as (res & -> & K & O).
  exists res. split; [reflexivity|].
  split; [|split; [|exact O]].
  - destruct K as [ -> | [ -> | [ -> | [ -> | [ -> | [ (c & ->) | -> ] ] ] ] ] ];
      discriminate.
  - intro d.
    destruct K as [ -> | [ -> | [ -> | [ -> | [ -> | [ (c & ->) | -> ] ] ] ] ] ];
      discriminate.
Qed.

Lemma trade_never_completes_witness :
  existsb is_order
    (trace_of (run (env_of (with_account (world uuid_any [] 1000)))
                 (post_trade (Some (buy_btc uuid_1))) db_alice)) = true
  /\ answer_of (run (env_of (with_account (world uuid_any [] 1000)))
                  (post_trade (Some (buy_btc uuid_1))) db_alice)
     = Some internal_server_error.
Proof.
  assert (O : existsb is_order
                (trace_of (run (env_of (with_account (world uuid_any [] 1000)))
                             (post_trade (Some (buy_btc uuid_1))) db_alice))
              = true) by (vm_compute; reflexivity).
  split; [exact O|].
  destruct (trade_never_completes (env_of (with_account (world uuid_any [] 1000)))
              (Some (buy_btc uuid_1)) db_alice)
    as (_ & res & A & _ & _ & K).
  rewrite A, (K O). reflexivity.
Defined.

(* ------------------------------------------------------------------ *)
(** ** A revoked agent, request after request *)

Lemma saveAgent_id_unique (agent : Agent) (db db' : Db) :
  id_unique db -> saveAgent agent db = Some db' -> id_unique db'.
Proof.
  intros U S. destruct (hl_address agent) as [addr|] eqn:A;
    [|unfold saveAgent in S; rewrite A in S; discriminate S].
  unfold id_unique. rewrite (saveAgent_agents _ _ _ _ A S), map_app.
  cbn [map row_id].
  apply NoDup_snoc; [apply NoDup_map_filter; exact U|].
  intro I. apply In_map_filter in I. destruct I as (r & _ & C & E).
  unfold conflicts in C. rewrite E, String.eqb_refl in C. discriminate C.
Qed.

Lemma handler_keeps_id_unique (env : Env) (q : Request) (db : Db) :
  id_unique db -> id_unique (store_after (run env (handler q) db)).
Proof.
  intro U.
  destruct (run env (handler q) db) as [[f db'] tr] eqn:R.
  cbn [store_after fst snd]. destruct q as [bypassPnl body|body|body];
    cbn [handler] in R.
  - destruct (evaluate_writes_on_approval_only _ _ _ _ _ _ _ R)
      as [->|(b & agent & m & msg & ->)]; [exact U|].
    destruct body as [input|]; [|cbn in R; discriminate R].
    apply evaluate_approved in R.
    destruct R as (_ & _ & _ & _ & w & _ & _ & S).
    eapply saveAgent_id_unique; [|exact S]. exact U.
  - apply trade_never_revokes in R. destruct R as [-> _]. exact U.
  - apply cancel_never_writes in R. subst db'. exact U.
Qed.

Lemma find_by_id (rows : list AgentRow) (r : AgentRow) :
  NoDup (map row_id rows) -> In r rows ->
  find (fun x => String.eqb (row_id x) (row_id r)) rows = Some r.
Proof.
  induction rows as [|x rows IH]; intros N I; [destruct I|].
  cbn in N. inversion N as [|? ? Nx N']; subst. cbn.
  destruct I as [->|I]; [rewrite String.eqb_refl; reflexivity|].
  destruct (String.eqb (row_id x) (row_id r)) eqn:E; [|apply IH; assumption].
  apply String.eqb_eq in E. exfalso. apply Nx. rewrite E.
  apply in_map. exact I.
Qed.

Lemma serve_keeps_row (reqs : list (Env * Request)) : forall db r,
  id_unique db -> In r (agents db) -> fresh_for (row_id r) reqs ->
  id_unique (serve reqs db) /\ In r (agents (serve reqs db)).
Proof.
  induction reqs as [|[env q] rest IH]; intros db r U I F; [auto|].
  cbn [serve]. inversion F as [|? ? Fq F']; subst. apply IH.
  - apply handler_keeps_id_unique. exact U.
  - apply row_kept; assumption.
  - exact F'.
Qed.

(** X13.  Revocation is kept by the code that reads it: in a store with
    distinct identifiers, whatever requests are served afterwards (as long
    as [randomUUID] does not return the identifier of the agent again), the
    row of a revoked agent is still there, unchanged, and its [/trade] and
    [/cancel] are answered 403 with no outside call and no write. *)
Theorem revoked_stays_denied (reqs : list (Env * Request)) (db : Db)
    (r : AgentRow) :
  id_unique db -> In r (agents db) -> row_status r = revoked ->
  fresh_for (row_id r) reqs ->
  let db' := serve reqs db in
  getAgent (row_id r) db' = Some (row_as_Agent r)
  /\ (forall env input,
         TradeInput.agent_id input = row_id r ->
         run env (post_trade (Some input)) db'
         = (Sent access_revoked, db', []))
  /\ (forall env input,
         CancelInput.agent_id input = row_id r ->
         run env (post_cancel (Some input)) db'
         = (Sent cancel_access_revoked, db', [])).
Proof.
  intros U I S F db'. subst db'.
  destruct (serve_keeps_row reqs db r U I F) as [U' I'].
  assert (G : getAgent (row_id r) (serve reqs db) = Some (row_as_Agent r)).
  { unfold getAgent. rewrite (find_by_id _ r U' I'). reflexivity. }
  split; [exact G|]. split.
  - intros env input E. apply (revoked_is_denied env input _ (row_as_Agent r));
      [rewrite E; exact G|exact S].
  - intros env input E. unfold post_cancel, parse, query. cbn.
    rewrite E, G. cbn. rewrite S. reflexivity.
Qed.

Lemma db_mixed_id_unique : id_unique db_mixed.
Proof.
  unfold id_unique, db_mixed. cbn.
  repeat constructor; cbn; intuition discriminate.
Qed.

Lemma revoked_stays_denied_witness :
  let db' := serve two_onboardings db_mixed in
  getAgent uuid_r db' = Some (row_as_Agent row_revoked)
  /\ run (env_of (world uuid_any [] 1000))
       (post_trade (Some (buy_btc uuid_r))) db'
     = (Sent access_revoked, db', [])
  /\ run (env_of (world uuid_any [] 1000))
       (post_cancel (Some (cancel_btc uuid_r))) db'
     = (Sent cancel_access_revoked, db', []).
Proof.
  destruct (revoked_stays_denied two_onboardings db_mixed row_revoked)
    as (G & T & C).
  - exact db_mixed_id_unique.
  - cbn. auto.
  - reflexivity.
  - repeat constructor; cbn; discriminate.
  - split; [exact G|]. split; [apply T|apply C]; reflexivity.
Defined.

(* ------------------------------------------------------------------ *)
(** ** [/cancel] *)

(** X14.  [/cancel] never writes to the store.  An unknown agent is answered
    404, a revoked one 403 and an agent without wallet 500, with no outside
    call.  Otherwise neither the daily limit nor the balance is looked at:
    it reads the list of coins, and when the coin is listed and the account
    is obtained it cancels the order and answers 200 with the answer of the
    exchange. *)
Theorem cancel_gate (env : Env) (input : CancelInput.t) (db : Db) :
  (forall body, store_after (run env (post_cancel body) db) = db)
  /\ (getAgent (CancelInput.agent_id input) db = None ->
      run env (post_cancel (Some input)) db = (Sent agent_not_found, db, []))
  /\ (forall agent,
         getAgent (CancelInput.agent_id input) db = Some agent ->
         (status agent = revoked ->
          run env (post_cancel (Some input)) db
          = (Sent cancel_access_revoked, db, []))
         /\ (status agent = active ->
             getWalletForAgent (id agent) db = None ->
             run env (post_cancel (Some input)) db
             = (Sent no_wallet_assigned, db, []))
         /\ (forall wallet universe coinIndex account result,
                status agent = active ->
                getWalletForAgent (id agent) db = Some wallet ->
                answer env _ meta = Some universe ->
                findIndex (toUpperCase (CancelInput.coin input)) universe
                = Some coinIndex ->
                returns env _ (privateKeyToAccount None) = Some account ->
                answer env _ (cancel account coinIndex (CancelInput.oid input))
                = Some result ->
                run env (post_cancel (Some input)) db
                = (Sent (cancel_executed (id agent) result), db,
                   [awaited meta; called (privateKeyToAccount None);
                    awaited (cancel account coinIndex
                               (CancelInput.oid input))]))).
Proof.
  split; [|split].
  - intro body.
    destruct (run env (post_cancel body) db) as [[f db'] tr] eqn:R.
    cbn [store_after fst snd]. eapply cancel_never_writes. exact R.
  - intro G. unfold post_cancel, parse, query. cbn. rewrite G. reflexivity.
  - intros agent G. unfold post_cancel, parse, query, await, call. cbn.
    rewrite G. cbn. split; [|split].
    + intro S. rewrite S. reflexivity.
    + intros S W. rewrite S. cbn. rewrite W. reflexivity.
    + intros wallet universe coinIndex account result S W M F A C.
      rewrite S. cbn. rewrite W. cbn. rewrite M. cbn. rewrite F. cbn.
      rewrite A. cbn. rewrite C. reflexivity.
Qed.

Lemma cancel_gate_witness :
  run (env_of (with_account (world uuid_any [] 1000)))
    (post_cancel (Some (cancel_btc uuid_q))) db_mixed
  = (Sent (cancel_executed uuid_q "ok"%string), db_mixed,
     [awaited meta; called (privateKeyToAccount None);
      awaited (cancel "account"%string 0 7)])
  /\ run (env_of (world uuid_any [] 1000))
       (post_cancel (Some (cancel_btc uuid_nobody))) db_mixed
     = (Sent agent_not_found, db_mixed, [])
  /\ run (env_of (world uuid_any [] 1000))
       (post_cancel (Some (cancel_btc uuid_n))) db_mixed
     = (Sent no_wallet_assigned, db_mixed, []).
Proof.
  split; [|split].
  - destruct (cancel_gate (env_of (with_account (world uuid_any [] 1000)))
                (cancel_btc uuid_q) db_mixed) as (_ & _ & K).
    destruct (K _ eq_refl) as (_ & _ & E).
    apply (E {| address := w3_address; api_id := "acc_3";
                assigned_to := Some uuid_q |}
             ["BTC"; "ETH"]%string 0%nat "account"%string "ok"%string);
      reflexivity.
  - apply (cancel_gate (env_of (world uuid_any [] 1000)) (cancel_btc uuid_nobody)
             db_mixed). reflexivity.
  - destruct (cancel_gate (env_of (world uuid_any [] 1000))
                (cancel_btc uuid_n) db_mixed) as (_ & _ & K).
    destruct (K _ eq_refl) as (_ & E & _). apply E; reflexivity.
Defined.

(* ------------------------------------------------------------------ *)
(** ** The orders of a trade *)

Arguments ordersToPlace : simpl nomatch.
Arguments truthy : simpl nomatch.
Arguments findIndex : simpl nomatch.

(** An order that closes the position: on the other side, for the same
    size and asset, reduce-only, triggered at its own price as a market
    order. *)
Lemma closing_orders (coinIndex : nat) (input : TradeInput.t) :
  Forall (fun o =>
            o_a o = coinIndex
            /\ o_b o = negb (TradeInput.is_buy input)
            /\ o_s o = TradeInput.sz input
            /\ o_r o = true
            /\ exists kind, o_t o = t_trigger true (o_p o) kind)
    (tl (ordersToPlace coinIndex input)).
Proof.
  unfold ordersToPlace. cbn [app tl].
  destruct (truthy (TradeInput.tp_px input)),
    (truthy (TradeInput.sl_px input)); cbn [app];
    repeat constructor; cbn; eexists; reflexivity.
Qed.

(** X15.  The orders of a trade are the order asked for, immediate-or-cancel
    when it is a market order and good-til-cancelled when it is a limit
    order, followed by at most two closing orders, the take profit before
    the stop loss: each on the other side, for the same size and asset,
    reduce-only, triggered at its own price.  The grouping is [na] exactly
    when there is no closing order. *)
Theorem orders_shape (coinIndex : nat) (input : TradeInput.t) :
  exists closing,
    ordersToPlace coinIndex input
    = {| o_a := coinIndex; o_b := TradeInput.is_buy input;
         o_p := TradeInput.limit_px input; o_s := TradeInput.sz input;
         o_r := TradeInput.reduce_only input;
         o_t := match TradeInput.order_type input with
                | market => t_limit Ioc
                | limit => t_limit Gtc
                end |} :: closing
    /\ (length closing <= 2)%nat
    /\ Forall (fun o =>
                 o_a o = coinIndex
                 /\ o_b o = negb (TradeInput.is_buy input)
                 /\ o_s o = TradeInput.sz input
                 /\ o_r o = true
                 /\ exists kind, o_t o = t_trigger true (o_p o) kind)
         closing
    /\ map o_t closing
       = (if truthy (TradeInput.tp_px input)
          then [t_trigger true (or_zero (TradeInput.tp_px input)) tp] else [])
         ++ (if truthy (TradeInput.sl_px input)
             then [t_trigger true (or_zero (TradeInput.sl_px input)) sl]
             else [])
    /\ (grouping_of input = na <-> closing = []).
Proof.
  exists (tl (ordersToPlace coinIndex input)).
  split; [reflexivity|]. split; [|split; [apply closing_orders|]].
  - unfold ordersToPlace. cbn [app tl].
    destruct (truthy (TradeInput.tp_px input)),
      (truthy (TradeInput.sl_px input)); cbn; lia.
  - unfold ordersToPlace, grouping_of. cbn [app tl].
    destruct (truthy (TradeInput.tp_px input)),
      (truthy (TradeInput.sl_px input)); cbn;
      (split; [reflexivity|]); split; intro H; try reflexivity;
      discriminate H.
Qed.

Lemma truthy_positive (x : option Q) :
  optional positive x = true -> truthy x = true <-> x <> None.
Proof.
  destruct x as [v|]; cbn; intro P.
  - split; [discriminate|]. intros _. unfold truthy. apply negb_true_iff.
    apply gt_true in P. destruct (Qeq_bool v 0) eqn:E; [|reflexivity].
    apply Qeq_bool_iff in E. lra.
  - split; [discriminate|]. intro H. exfalso. apply H. reflexivity.
Qed.

(** X16.  For a body that meets the checks of [TradeInputSchema], every
    optional field that is given takes effect: the tests [if (input.tp_px)],
    [if (input.sl_px)] and [if (input.leverage)] hold exactly when the field
    is present, since the schema lets no 0 through.  So there is one order
    more for a take profit given and one more for a stop loss given. *)
Theorem given_options_take_effect (coinIndex : nat) (input : TradeInput.t) :
  TradeInputSchema_checks input = true ->
  (truthy (TradeInput.tp_px input) = true <-> TradeInput.tp_px input <> None)
  /\ (truthy (TradeInput.sl_px input) = true
      <-> TradeInput.sl_px input <> None)
  /\ (truthy (TradeInput.leverage input) = true
      <-> TradeInput.leverage input <> None)
  /\ length (ordersToPlace coinIndex input)
     = (1 + given (TradeInput.tp_px input)
        + given (TradeInput.sl_px input))%nat
  /\ (0 < TradeInput.sz input /\ 0 < TradeInput.limit_px input)
  /\ toUpperCase (TradeInput.coin input) <> ""%string.
Proof.
  unfold TradeInputSchema_checks. intro H.
  repeat (apply andb_true_iff in H; destruct H as [H ?]).
  match goal with
  | C : (1 <=? _)%nat = true, S : positive (TradeInput.sz _) = true,
    P : positive (TradeInput.limit_px _) = true,
    L : optional _ (TradeInput.leverage _) = true,
    T : optional positive (TradeInput.tp_px _) = true,
    K : optional positive (TradeInput.sl_px _) = true |- _ =>
      pose proof (truthy_positive _ T) as Tp;
      pose proof (truthy_positive _ K) as Sl;
      rename C into Coin, S into Sz, P into Px, L into Lev
  end.
  split; [exact Tp|]. split; [exact Sl|]. split; [|split; [|split]].
  - destruct (TradeInput.leverage input) as [v|]; cbn in *.
    + split; [discriminate|]. intros _. unfold truthy.
      apply negb_true_iff. apply andb_true_iff in Lev. destruct Lev as [L _].
      apply ge_true in L. destruct (Qeq_bool v 0) eqn:E; [|reflexivity].
      apply Qeq_bool_iff in E. lra.
    + split; [discriminate|]. intro N. exfalso. apply N. reflexivity.
  - unfold ordersToPlace. rewrite !length_app. cbn [length].
    destruct (TradeInput.tp_px input) as [t|] eqn:Et;
      destruct (TradeInput.sl_px input) as [s|] eqn:Es.
    all: repeat match goal with
           | I : truthy (Some ?v) = true <-> _ |- _ =>
               let E := fresh in
               assert (E : truthy (Some v) = true)
                 by (apply I; discriminate);
               rewrite E; clear I
           end.
    all: cbn; reflexivity.
  - unfold positive in Sz, Px. apply gt_true in Sz, Px. auto.
  - destruct (TradeInput.coin input); [discriminate Coin|discriminate].
Qed.

Lemma given_options_take_effect_witness :
  length (ordersToPlace 0 (buy_btc_tpsl uuid_1)) = 3%nat
  /\ truthy (TradeInput.leverage (buy_btc_tpsl uuid_1)) = true.
Proof.
  destruct (given_options_take_effect 0 (buy_btc_tpsl uuid_1))
    as (_ & _ & L & N & _); [reflexivity|].
  split; [exact N|]. apply L. discriminate.
Defined.

(* ------------------------------------------------------------------ *)
(** ** The lookup of the coin *)

Section Coin.








End Coin.



(* ------------------------------------------------------------------ *)
(** ** The pool of wallets *)

Section Pool.

Lemma never_released_refl (wallets : list FundedWallet) :
  Forall2 never_released wallets wallets.
Proof.
  induction wallets; constructor; [|assumption].
  repeat split; auto.
Qed.

Lemma never_released_trans (l1 l2 l3 : list FundedWallet) :
  Forall2 never_released l1 l2 -> Forall2 never_released l2 l3 ->
  Forall2 never_released l1 l3.
Proof.
  intro H. revert l3. induction H as [|a b l1 l2 (A & I & F) _ IH];
    intros l3 K; inversion K as [|? c ? l3' (A' & I' & F') K']; subst;
    constructor.
  - repeat split; [congruence|congruence|auto].
  - apply IH. exact K'.
Qed.

Lemma assignWallet_never_releases (target agentId : string) (db : Db) :
  Forall2 never_released (funded_wallets db)
    (funded_wallets (assignWallet target agentId db)).
Proof.
  unfold assignWallet. cbn [funded_wallets].
  induction (funded_wallets db) as [|w rest IH]; cbn; constructor;
    [|exact IH].
  destruct (String.eqb (address w) target); repeat split; auto.
Qed.

Lemma handler_never_releases (env : Env) (q : Request) (db : Db) :
  Forall2 never_released (funded_wallets db)
    (funded_wallets (store_after (run env (handler q) db))).
Proof.
  destruct (run env (handler q) db) as [[f db'] tr] eqn:R.
  cbn [store_after fst snd]. destruct q as [bypassPnl body|body|body];
    cbn [handler] in R.
  - destruct (evaluate_writes_on_approval_only _ _ _ _ _ _ _ R)
      as [->|(b & agent & m & msg & ->)]; [apply never_released_refl|].
    destruct body as [input|]; [|cbn in R; discriminate R].
    apply evaluate_approved in R.
    destruct R as (_ & A & _ & _ & w & _ & _ & S).
    rewrite (saveAgent_wallets _ _ _ _ A S).
    apply assignWallet_never_releases.
  - apply trade_never_revokes in R. destruct R as [-> _].
    apply never_released_refl.
  - apply cancel_never_writes in R. subst db'. apply never_released_refl.
Qed.

Lemma never_released_free (l l' : list FundedWallet) :
  Forall2 never_released l l' ->
  length l' = length l
  /\ map address l' = map address l
  /\ (length (filter is_free l') <= length (filter is_free l))%nat.
Proof.
  induction 1 as [|w w' l l' (A & _ & F) _ (L & M & C)]; [auto|].
  cbn. rewrite L, M, A. repeat split.
  destruct (is_free w) eqn:Fw.
  - destruct (is_free w'); cbn; lia.
  - rewrite (F eq_refl). exact C.
Qed.

End Pool.

(** X18.  No request ever releases a wallet or adds one: whatever requests
    are served, the pool has the same wallets in the same order, a wallet
    that was assigned is still assigned, and so the number of free wallets
    never goes up. *)
Theorem pool_never_released (reqs : list (Env * Request)) (db : Db) :
  Forall2 never_released (funded_wallets db) (funded_wallets (serve reqs db))
  /\ fst (getFundedWalletsCount (serve reqs db))
     = fst (getFundedWalletsCount db)
  /\ (snd (getFundedWalletsCount (serve reqs db))
      <= snd (getFundedWalletsCount db))%nat
  /\ map address (funded_wallets (serve reqs db))
     = map address (funded_wallets db).
Proof.
  assert (K : Forall2 never_released (funded_wallets db)
                (funded_wallets (serve reqs db))).
  { revert db. induction reqs as [|[env q] rest IH]; intro db;
      [apply never_released_refl|].
    cbn [serve]. eapply never_released_trans;
      [apply (handler_never_releases env q)|apply IH]. }
  destruct (never_released_free _ _ K) as (L & M & F).
  unfold getFundedWalletsCount. cbn [fst snd]. auto.
Qed.

Section TakeOne.

Variables (target agentId : string).

Lemma assign_elsewhere (wallets : list FundedWallet) :
  ~ In target (map address wallets) ->
  map (assign_to target agentId) wallets = wallets.
Proof.
  induction wallets as [|w rest IH]; intro N; [reflexivity|].
  cbn in *. unfold assign_to at 1.
  destruct (String.eqb (address w) target) eqn:E.
  - apply String.eqb_eq in E. tauto.
  - rewrite IH; [reflexivity|tauto].
Qed.

Lemma assign_takes_one (wallets : list FundedWallet) (w : FundedWallet) :
  NoDup (map address wallets) -> In w wallets -> address w = target ->
  is_free w = true ->
  S (length (filter is_free (map (assign_to target agentId) wallets)))
  = length (filter is_free wallets)
  /\ Forall (fun w' => is_free w' = true -> address w' <> target)
       (map (assign_to target agentId) wallets).
Proof.
  induction wallets as [|w0 rest IH]; intros N I A F; [destruct I|].
  cbn in N. apply NoDup_cons_iff in N. destruct N as [N0 N'].
  cbn [map filter].
  destruct I as [->|I].
  - rewrite A in N0.
    assert (E : assign_to target agentId w
                = {| address := address w; api_id := api_id w;
                     assigned_to := Some agentId |})
      by (unfold assign_to; rewrite A, String.eqb_refl; reflexivity).
    rewrite E. cbn.
    rewrite F, (assign_elsewhere rest N0). cbn. split; [reflexivity|].
    constructor; [cbn; intro H; discriminate H|].
    apply Forall_forall. intros w' I' _ X. apply N0. rewrite <- X.
    apply in_map. exact I'.
  - assert (D : address w0 <> target).
    { intro X. apply N0. rewrite X, <- A. apply in_map. exact I. }
    apply String.eqb_neq in D.
    assert (E : assign_to target agentId w0 = w0)
      by (unfold assign_to; rewrite D; reflexivity).
    rewrite E.
    destruct (IH N' I A F) as [L K].
    split; [|constructor; [intros _; apply String.eqb_neq; exact D|exact K]].
    destruct (is_free w0); cbn; lia.
Qed.

End TakeOne.

(** X19.  With distinct wallet addresses, an approval takes exactly one
    wallet out of the pool: the number of free wallets goes down by one, the
    number of wallets stays, and the wallet of the approval is not the one
    that [getAvailableWallet] returns next. *)
Theorem approval_takes_one_wallet (bypassPnl : bool)
    (input : EvaluateInput.t) (env : Env) (db db' : Db) (tr : list Event)
    (b : bool) (agent : Agent) (m : Metrics) (msg : string) :
  run env (post_evaluate bypassPnl (Some input)) db
  = (Sent (approved b agent m msg), db', tr) ->
  NoDup (map address (funded_wallets db)) ->
  S (snd (getFundedWalletsCount db')) = snd (getFundedWalletsCount db)
  /\ fst (getFundedWalletsCount db') = fst (getFundedWalletsCount db)
  /\ (forall next,
         getAvailableWallet db' = Some next ->
         address next <> funded_wallet_address agent).
Proof.
  intros R N.
  destruct (evaluate_approved _ _ _ _ _ _ _ _ _ _ R)
    as (_ & A & _ & _ & w & G & W & S).
  pose proof (saveAgent_wallets _ _ _ _ A S) as Wa.
  cbn [funded_wallets assignWallet] in Wa.
  change (funded_wallets db'
          = map (assign_to (address w) (id agent)) (funded_wallets db)) in Wa.
  unfold getAvailableWallet in G. apply find_some in G.
  destruct G as [I F].
  destruct (assign_takes_one (address w) (id agent) (funded_wallets db) w N I
              eq_refl F) as [L K].
  unfold getFundedWalletsCount, getAvailableWallet. rewrite Wa.
  cbn [fst snd]. split; [exact L|]. split; [apply length_map|].
  intros next Nx. apply find_some in Nx. destruct Nx as [In' Fr].
  rewrite W. rewrite Forall_forall in K. exact (K next In' Fr).
Qed.

Lemma approval_takes_one_wallet_witness :
  snd (getFundedWalletsCount db_alice) = 0%nat
  /\ snd (getFundedWalletsCount db_one_wallet) = 1%nat.
Proof.
  destruct (run (env_of (world uuid_1 history_12 1000))
              (post_evaluate false (Some alice)) db_one_wallet)
    as [[f1 db1] tr1] eqn:R.
  assert (A : exists b m msg agent,
             f1 = Sent (approved b agent m msg) /\ db1 = db_alice).
  { unfold db_alice, store_after. rewrite R. cbn [fst snd].
    vm_compute in R. inversion R. do 4 eexists. split; reflexivity. }
  destruct A as (b & m & msg & agent & -> & ->).
  destruct (approval_takes_one_wallet false alice _ _ _ _ _ _ _ _ R)
    as (L & _).
  - cbn. repeat constructor. intros [].
  - split; [|reflexivity].
    assert (O : snd (getFundedWalletsCount db_one_wallet) = 1%nat)
      by reflexivity.
    rewrite O in L. lia.
Defined.

(* ------------------------------------------------------------------ *)
(** ** The start of the process *)

Lemma load_wallets_run (env : Env) (keys : list string) (db : Db) :
  store_after (run env (load_wallets keys) db) = db
  /\ (fst (fst (run env (load_wallets keys) db)) = Returned tt
      <-> keys = []).
Proof.
  destruct keys as [|key rest]; [split; [reflexivity|tauto]|].
  unfold load_wallets, call, exec_or_throw. cbn.
  destruct (returns env _ (privateKeyToAccount (Some (with_0x key))));
    cbn; (split; [reflexivity|]); split; discriminate.
Qed.

Lemma split_comma_nonempty (s : string) : split_comma s <> [].
Proof.
  destruct s as [|c s]; cbn; [discriminate|].
  destruct (Ascii.eqb c _); [discriminate|].
  destruct (split_comma s); discriminate.
Qed.

(** X20.  After the start of the process the pool is empty.  Loading
    [db.ts] drops the table of the wallets and keeps the agents; the loop
    over [FUNDED_WALLETS] gives [saveWallet] objects that have no [apiId],
    so it writes no wallet and throws at the first key: it only completes
    when no key is configured. *)
Theorem startup_pool_empty (env : Env) (FUNDED_WALLETS : option string)
    (db : Db) :
  let start := run env (load_wallets (rawKeys FUNDED_WALLETS)) (db_init db) in
  funded_wallets (store_after start) = []
  /\ agents (store_after start) = agents db
  /\ (fst (fst start) = Returned tt <-> rawKeys FUNDED_WALLETS = [])
  /\ (forall key, In key (rawKeys FUNDED_WALLETS) -> key <> ""%string)
  /\ rawKeys None = [] /\ rawKeys (Some ""%string) = [].
Proof.
  intro start. subst start.
  destruct (load_wallets_run env (rawKeys FUNDED_WALLETS) (db_init db))
    as [S R].
  rewrite S. split; [reflexivity|]. split; [reflexivity|].
  split; [exact R|]. split; [|split; reflexivity].
  intros key I. unfold rawKeys in I. apply filter_In in I.
  destruct I as [_ N]. apply negb_true_iff, String.eqb_neq in N. exact N.
Qed.

Lemma startup_pool_empty_witness :
  rawKeys (Some "0xaa,bb,,"%string) = ["0xaa"; "bb"]%string
  /\ fst (fst (run (env_of (with_account (world uuid_any [] 1000)))
                 (load_wallets (rawKeys (Some "0xaa,bb,,"%string)))
                 (db_init db_mixed)))
     <> Returned tt.
Proof.
  split; [reflexivity|].
  destruct (startup_pool_empty (env_of (with_account (world uuid_any [] 1000)))
              (Some "0xaa,bb,,"%string) db_mixed) as (_ & _ & R & _).
  intro H. apply R in H. discriminate H.
Defined.

Lemma empty_pool_handler (env : Env) (q : Request) (db : Db) :
  funded_wallets db = [] -> store_after (run env (handler q) db) = db.
Proof.
  intro E.
  destruct (run env (handler q) db) as [[f db'] tr] eqn:R.
  cbn [store_after fst snd]. destruct q as [bypassPnl body|body|body];
    cbn [handler] in R.
  - destruct (evaluate_writes_on_approval_only _ _ _ _ _ _ _ R)
      as [->|(b & agent & m & msg & ->)]; [reflexivity|].
    destruct body as [input|]; [|cbn in R; discriminate R].
    apply evaluate_approved in R.
    destruct R as (_ & _ & _ & _ & w & G & _).
    unfold getAvailableWallet in G. rewrite E in G. discriminate G.
  - apply trade_never_revokes in R. destruct R as [-> _]. reflexivity.
  - apply cancel_never_writes in R. subst db'. reflexivity.
Qed.

(** X21.  With an empty pool nothing happens: whatever requests are served,
    the store stays as it is; no [/evaluate] is approved; and no [/trade]
    or [/cancel] gets past the lookup of the wallet, so neither makes any
    outside call. *)
Theorem empty_pool_is_inert (db : Db) :
  funded_wallets db = [] ->
  (forall reqs, serve reqs db = db)
  /\ (forall env bypassPnl body b agent m msg,
         answer_of (run env (post_evaluate bypassPnl body) db)
         <> Some (approved b agent m msg))
  /\ (forall env body, trace_of (run env (post_trade body) db) = [])
  /\ (forall env body, trace_of (run env (post_cancel body) db) = []).
Proof.
  intro E. split; [|split; [|split]].
  - intro reqs. induction reqs as [|[env q] rest IH]; [reflexivity|].
    cbn [serve]. rewrite (empty_pool_handler env q db E). exact IH.
  - intros env bypassPnl body b agent m msg H.
    destruct (run env (post_evaluate bypassPnl body) db)
      as [[f db'] tr] eqn:R.
    unfold answer_of in H. cbn [fst] in H.
    destruct f as [| |res]; try discriminate H. inversion H; subst.
    destruct body as [input|]; [|cbn in R; discriminate R].
    apply evaluate_approved in R.
    destruct R as (_ & _ & _ & _ & w & G & _).
    unfold getAvailableWallet in G. rewrite E in G. discriminate G.
  - intros env body.
    destruct (run env (post_trade body) db) as [[f db'] tr] eqn:R.
    unfold trace_of. cbn [snd].
    destruct body as [input|]; [|cbn in R; inversion R; reflexivity].
    unfold post_trade, trade_gate, parse, query in R. cbn in R.
    destruct (getAgent (TradeInput.agent_id input) db) as [agent|];
      cbn in R; [|inversion R; reflexivity].
    destruct (Status_eqb (status agent) revoked); cbn in R;
      [inversion R; reflexivity|].
    destruct (RISK_GATES.MAX_DAILY_TRADES <=? trade_count agent)%Z;
      cbn in R; [inversion R; reflexivity|].
    assert (W : getWalletForAgent (id agent) db = None)
      by (unfold getWalletForAgent; rewrite E; reflexivity).
    rewrite W in R. cbn in R. inversion R; reflexivity.
  - intros env body.
    destruct (run env (post_cancel body) db) as [[f db'] tr] eqn:R.
    unfold trace_of. cbn [snd].
    destruct body as [input|]; [|cbn in R; inversion R; reflexivity].
    unfold post_cancel, parse, query in R. cbn in R.
    destruct (getAgent (CancelInput.agent_id input) db) as [agent|];
      cbn in R; [|inversion R; reflexivity].
    destruct (Status_eqb (status agent) revoked); cbn in R;
      [inversion R; reflexivity|].
    assert (W : getWalletForAgent (id agent) db = None)
      by (unfold getWalletForAgent; rewrite E; reflexivity).
    rewrite W in R. cbn in R. inversion R; reflexivity.
Qed.

Lemma empty_pool_is_inert_witness :
  serve two_onboardings (db_init db_mixed) = db_init db_mixed
  /\ trace_of (run (env_of (world uuid_any [] 1000))
                 (post_trade (Some (buy_btc uuid_1))) (db_init db_mixed))
     = [].
Proof.
  destruct (empty_pool_is_inert (db_init db_mixed) eq_refl) as (S & _ & T & _).
  split; [apply S|apply T].
Defined.

(* ------------------------------------------------------------------ *)
(** ** [saveWallet] *)

(** X22.  [saveWallet] never touches a wallet that is in the pool: for an
    address that the pool has, the store is unchanged, whatever assignment
    the object carries; otherwise the wallet is added at the end.  Saving
    the same object twice is saving it once, wallets with distinct addresses
    keep distinct addresses, and an object without [apiId] is not saved. *)
Theorem saveWallet_ignores_known (wallet : WalletObject) (db : Db) :
  (wo_apiId wallet = None -> saveWallet wallet db = None)
  /\ (forall apiId,
         wo_apiId wallet = Some apiId ->
         exists db',
           saveWallet wallet db = Some db'
           /\ agents db' = agents db
           /\ (In (wo_address wallet) (map address (funded_wallets db)) ->
               db' = db)
           /\ (~ In (wo_address wallet) (map address (funded_wallets db)) ->
               funded_wallets db'
               = funded_wallets db
                 ++ [ {| address := wo_address wallet; api_id := apiId;
                         assigned_to := wo_assigned_to wallet |} ])
           /\ saveWallet wallet db' = Some db'
           /\ (NoDup (map address (funded_wallets db)) ->
               NoDup (map address (funded_wallets db')))
           /\ In (wo_address wallet) (map address (funded_wallets db'))).
Proof.
  split; [intro N; unfold saveWallet; rewrite N; reflexivity|].
  intros apiId A. unfold saveWallet. rewrite A.
  destruct (existsb (fun w => String.eqb (address w) (wo_address wallet))
              (funded_wallets db)) eqn:X.
  - assert (I : In (wo_address wallet) (map address (funded_wallets db))).
    { apply existsb_exists in X. destruct X as (w & Iw & E).
      apply String.eqb_eq in E. rewrite <- E. apply in_map. exact Iw. }
    exists db. rewrite X. repeat split; auto. intro N. exfalso. exact (N I).
  - assert (N : ~ In (wo_address wallet) (map address (funded_wallets db))).
    { intro I. apply in_map_iff in I. destruct I as (w & E & Iw).
      assert (T : existsb (fun w => String.eqb (address w) (wo_address wallet))
                    (funded_wallets db) = true).
      { apply existsb_exists. exists w. split; [exact Iw|].
        apply String.eqb_eq. exact E. }
      congruence. }
    eexists. split; [reflexivity|]. cbn [agents funded_wallets].
    split; [reflexivity|]. split; [intro I; exfalso; exact (N I)|].
    split; [reflexivity|]. split; [|split].
    + rewrite existsb_app. cbn. rewrite String.eqb_refl, orb_true_r.
      reflexivity.
    + intro D. rewrite map_app. cbn. apply NoDup_snoc; assumption.
    + rewrite map_app. apply in_or_app. right. left. reflexivity.
Qed.

Lemma saveWallet_ignores_known_witness :
  saveWallet {| wo_privateKey := None; wo_apiId := Some "acc_9"%string;
                wo_address := w1_address; wo_assigned_to := None |} db_mixed
  = Some db_mixed.
Proof.
  destruct (saveWallet_ignores_known
              {| wo_privateKey := None; wo_apiId := Some "acc_9"%string;
                 wo_address := w1_address; wo_assigned_to := None |} db_mixed)
    as (_ & K).
  destruct (K "acc_9"%string eq_refl) as (db' & S & _ & E & _).
  rewrite S, E; [reflexivity|]. cbn. auto.
Defined.

(* ------------------------------------------------------------------ *)
(** ** The read-only routes *)

(** X23.  [GET /stats/:agent_id] never writes and never answers 500: an
    unknown agent is answered 404 with no outside call; any agent of the
    store, revoked or not, is answered with the balance of its funded
    wallet, which is never [null], since [getBalance] does not throw: when
    the exchange cannot be read the balance shows zeros. *)
Theorem stats_answers (env : Env) (agent_id : string) (db : Db) :
  exists res tr,
    run env (get_stats agent_id) db = (Returned res, db, tr)
    /\ res <> stats_error
    /\ (forall agent, res <> stats agent None)
    /\ (getAgent agent_id db = None -> res = stats_not_found /\ tr = [])
    /\ (forall agent,
           getAgent agent_id db = Some agent ->
           exists bal,
             res = stats agent (Some bal)
             /\ run env (getBalance (funded_wallet_address agent)) db
                = (Returned bal, db, tr)).
Proof.
  unfold get_stats, query. cbn.
  destruct (getAgent agent_id db) as [agent|]; cbn.
  - unfold getBalance, await. cbn.
    destruct (answer env _ (clearinghouseState (funded_wallet_address agent)))
      eqn:C; cbn;
      destruct (answer env _
                  (spotClearinghouseState (funded_wallet_address agent)))
        as [spot|] eqn:S; cbn;
      try destruct (find _ spot) eqn:F; cbn.
    all: eexists _, _; split; [reflexivity|].
    all: split; [discriminate|]. all: split; [discriminate|].
    all: split; [discriminate|].
    all: intros a E; inversion E; subst; eexists; split; [reflexivity|].
    all: rewrite C; cbn; rewrite S; cbn; try rewrite F; reflexivity.
  - eexists _, _. split; [reflexivity|]. split; [discriminate|].
    split; [discriminate|]. split; [auto|discriminate].
Qed.

Lemma stats_answers_witness :
  exists bal tr,
    run (env_of (world_no_balance uuid_any [])) (get_stats uuid_r) db_mixed
    = (Returned (stats (row_as_Agent row_revoked) (Some bal)), db_mixed, tr).
Proof.
  destruct (stats_answers (env_of (world_no_balance uuid_any [])) uuid_r
              db_mixed) as (res & tr & R & _ & _ & _ & K).
  destruct (K (row_as_Agent row_revoked) eq_refl) as (bal & -> & _).
  exists bal, tr. exact R.
Defined.

Lemma filter_status_split (rows : list AgentRow) :
  length rows
  = (length (filter (fun r => Status_eqb (row_status r) active) rows)
     + length (filter (fun r => Status_eqb (row_status r) revoked) rows))%nat.
Proof.
  induction rows as [|r rows IH]; [reflexivity|].
  cbn. destruct (row_status r); cbn; lia.
Qed.

Lemma filter_status_text (s : Status) (rows : list AgentRow) :
  filter (fun r => String.eqb (status_text (row_status r)) (status_text s)) rows
  = filter (fun r => Status_eqb (row_status r) s) rows.
Proof.
  apply filter_ext. intro r. destruct (row_status r), s; reflexivity.
Qed.

(** X24.  [GET /agents] lists all the agents when no status is asked for
    (or an empty one, or ["all"]), the active ones for ["active"] and the
    revoked ones for ["revoked"], with their number as [count]; the two
    lists together have as many agents as the store; any other string gives
    an empty list.  A status given as an array of one string lists the
    agents of that status, so the array of ["all"] lists none; a status
    given as any other array or as an object makes [getAllAgents] throw,
    and the route has nothing that catches it. *)
Theorem agents_listing (db : Db) :
  get_agents None db = Some (map row_as_Agent (agents db), length (agents db))
  /\ get_agents (Some (q_string "")) db = get_agents None db
  /\ get_agents (Some (q_string "all")) db = get_agents None db
  /\ option_map fst (get_agents (Some (q_string "active")) db)
     = Some (getAllAgents (Some active) db)
  /\ option_map fst (get_agents (Some (q_string "revoked")) db)
     = Some (getAllAgents (Some revoked) db)
  /\ (exists a r,
         option_map snd (get_agents (Some (q_string "active")) db) = Some a
         /\ option_map snd (get_agents (Some (q_string "revoked")) db) = Some r
         /\ (a + r)%nat = length (agents db))
  /\ (forall other,
         other <> ""%string -> other <> "all"%string ->
         other <> "active"%string -> other <> "revoked"%string ->
         get_agents (Some (q_string other)) db = Some ([], 0%nat))
  /\ (forall s,
         s <> ""%string -> s <> "all"%string ->
         get_agents (Some (q_array [q_string s])) db
         = get_agents (Some (q_string s)) db)
  /\ get_agents (Some (q_array [q_string "all"])) db = Some ([], 0%nat)
  /\ get_agents (Some (q_array [q_string ""])) db = Some ([], 0%nat)
  /\ (forall v,
         (forall s, v <> q_string s) -> (forall s, v <> q_array [q_string s]) ->
         get_agents (Some v) db = None).
Proof.
  assert (N : forall other,
             other <> "active"%string -> other <> "revoked"%string ->
             filter (fun r => String.eqb (status_text (row_status r)) other)
               (agents db) = []).
  { intros other A' R'.
    induction (agents db) as [|r rows IH]; [reflexivity|].
    cbn [filter]. destruct (row_status r); cbn [status_text].
    - apply not_eq_sym, String.eqb_neq in A'. rewrite A'. exact IH.
    - apply not_eq_sym, String.eqb_neq in R'. rewrite R'. exact IH. }
  pose proof (filter_status_text active (agents db)) as A.
  pose proof (filter_status_text revoked (agents db)) as R.
  cbn [status_text] in A, R.
  unfold get_agents, getAllAgentsBy, getAllAgents, bound_parameter.
  split; [cbn; rewrite length_map; reflexivity|].
  split; [reflexivity|]. split; [reflexivity|].
  split; [cbn; rewrite A; reflexivity|].
  split; [cbn; rewrite R; reflexivity|].
  split.
  { eexists _, _. split; [cbn; reflexivity|]. split; [cbn; reflexivity|].
    rewrite A, R, !length_map. symmetry. apply filter_status_split. }
  split.
  { intros other E L A' R'.
    apply String.eqb_neq in E, L. rewrite E. cbn match. rewrite L.
    rewrite (N other A' R'). reflexivity. }
  split.
  { intros s E L. apply String.eqb_neq in E, L. rewrite E. cbn match.
    rewrite L. reflexivity. }
  split; [cbn; rewrite (N "all"%string); [reflexivity|discriminate..]|].
  split; [cbn; rewrite (N ""%string); [reflexivity|discriminate..]|].
  intros v S1 A1.
  destruct v as [s|items|fields]; [exfalso; exact (S1 s eq_refl)| |reflexivity].
  destruct items as [|[s|items'|fields] rest]; try reflexivity.
  destruct rest as [|x rest]; [exfalso; exact (A1 s eq_refl)|reflexivity].
Qed.

Lemma agents_listing_witness :
  get_agents (Some (q_string "Active")) db_mixed = Some ([], 0%nat)
  /\ get_agents (Some (q_array [q_string "active"])) db_mixed
     = get_agents (Some (q_string "active")) db_mixed
  /\ get_agents (Some (q_array [q_string "active"; q_string "revoked"]))
       db_mixed = None.
Proof.
  destruct (agents_listing db_mixed)
    as (_ & _ & _ & _ & _ & _ & K & A & _ & _ & T).
  split; [apply K; discriminate|].
  split; [apply A; discriminate|].
  apply T; discriminate.
Defined.

(* ------------------------------------------------------------------ *)
(** ** The refusals of onboarding, forwards *)

(** X25.  For an address that is not registered, with a signature that
    verifies and fills that were read: when the analysis fails and the
    bypass flag is off, [/evaluate] answers 403 with the metrics, before it
    looks at the pool; when the analysis passes or the flag is on and no
    wallet is free, it answers 503, before it reads any balance or draws an
    identifier.  In both cases the store is as before. *)
Theorem evaluate_refusals (bypassPnl : bool) (input : EvaluateInput.t)
    (env : Env) (db : Db) (fills : list Fill) :
  let addr := EvaluateInput.hyperliquid_address input in
  let message := (AUTH_MESSAGE_PREFIX ++ addr)%string in
  let verify := verifyMessage addr message (EvaluateInput.signature input) in
  getAgentByHyperliquidAddress addr db = None ->
  answer env _ verify = Some true ->
  answer env _ (userFills addr) = Some fills ->
  (passes (analyzeFills fills) = false -> bypassPnl = false ->
   run env (post_evaluate bypassPnl (Some input)) db
   = (Sent (rejected (analyzeFills fills)), db,
      [awaited verify; awaited (userFills addr)]))
  /\ (passes (analyzeFills fills) || bypassPnl = true ->
      getAvailableWallet db = None ->
      run env (post_evaluate bypassPnl (Some input)) db
      = (Sent no_funded_wallets, db,
         [awaited verify; awaited (userFills addr)])).
Proof.
  intros addr message verify N V F. subst addr message verify.
  unfold post_evaluate, analyzePnL, query, parse, await. cbn.
  rewrite N. cbn. rewrite V. cbn. rewrite F. cbn. split.
  - intros P B. rewrite P, B. reflexivity.
  - intros P W.
    assert (B : negb (passes (analyzeFills fills)) && negb bypassPnl = false).
    { destruct (passes (analyzeFills fills)), bypassPnl;
        try reflexivity; discriminate P. }
    rewrite B. cbn. rewrite W. reflexivity.
Qed.

Lemma evaluate_refusals_witness :
  run (env_of (world uuid_1 [] 1000)) (post_evaluate false (Some alice))
    db_one_wallet
  = (Sent (rejected (analyzeFills [])), db_one_wallet,
     [awaited (verifyMessage addr_alice (AUTH_MESSAGE_PREFIX ++ addr_alice)
                 "0x5a");
      awaited (userFills addr_alice)])
  /\ run (env_of (world uuid_1 [] 1000)) (post_evaluate true (Some alice))
       db_empty
     = (Sent no_funded_wallets, db_empty,
        [awaited (verifyMessage addr_alice (AUTH_MESSAGE_PREFIX ++ addr_alice)
                    "0x5a");
         awaited (userFills addr_alice)]).
Proof.
  split.
  - destruct (evaluate_refusals false alice (env_of (world uuid_1 [] 1000))
                db_one_wallet [] eq_refl eq_refl eq_refl) as (R & _).
    apply R; reflexivity.
  - destruct (evaluate_refusals true alice (env_of (world uuid_1 [] 1000))
                db_empty [] eq_refl eq_refl eq_refl) as (_ & C).
    apply C; reflexivity.
Defined.

(* ------------------------------------------------------------------ *)
(** ** Requests served one at a time *)

(** X26.  When the requests are served one at a time, a store in which no
    two agents share a funded wallet or an address, and in which the wallet
    of every agent is marked as assigned, stays so; and the wallet of an
    approval was free and held by no agent.  The addresses stay distinct
    under every interleaving of the requests as well, since [saveAgent]
    replaces the row of an address. *)
Theorem assignment_exclusive_one_at_a_time (reqs : list (Env * Request))
    (db : Db) :
  store_ok db ->
  store_ok (serve reqs db)
  /\ (forall env bypassPnl input b agent m msg db' tr,
         run env (post_evaluate bypassPnl (Some input)) db
         = (Sent (approved b agent m msg), db', tr) ->
         (exists w, getAvailableWallet db = Some w
                    /\ is_free w = true
                    /\ address w = funded_wallet_address agent)
         /\ ~ In (funded_wallet_address agent)
                (map row_funded_wallet_address (agents db)))
  /\ (forall sched,
         address_unique (snd (run_schedule sched (in_flight reqs) db))).
Proof.
  intro OK. split; [|split].
  - revert db OK. induction reqs as [|[env q] rest IH]; intros db OK;
      [exact OK|].
    cbn [serve]. apply IH, handler_keeps_store_ok, OK.
  - intros env bypassPnl input b agent m msg db' tr R.
    apply evaluate_approved in R.
    destruct R as (_ & _ & _ & _ & w & G & F & _).
    destruct OK as (_ & _ & H). split.
    + exists w. split; [exact G|]. split; [|symmetry; exact F].
      apply find_some in G. apply G.
    + rewrite F. apply available_wallet_unheld; assumption.
  - intro sched. apply run_schedule_keeps; [|apply OK].
    unfold in_flight. apply Forall_forall. intros et I.
    apply in_map_iff in I. destruct I as (eq & <- & _).
    apply handler_keeps_address_unique.
Qed.

Lemma assignment_exclusive_one_at_a_time_witness :
  store_ok (serve two_onboardings db_one_wallet)
  /\ map row_funded_wallet_address (agents (serve two_onboardings db_one_wallet))
     = [w1_address]
  /\ address_unique
       (snd (run_schedule overlapping (in_flight two_onboardings)
               db_one_wallet)).
Proof.
  destruct (assignment_exclusive_one_at_a_time two_onboardings db_one_wallet
              db_one_wallet_ok) as (S & _ & U).
  split; [exact S|]. split; [reflexivity|apply U].
Defined.
